(** * grepmarx: the scan pipeline of [app/analysis/util.py]

    A shallow embedding of the analysis utilities: the result normalizers
    ([load_scan_results], [load_vulnerability], [load_occurence], ...), the
    scanner adapters ([sca_scan], [semgrep_scan]), the orchestrator
    ([async_scan]), the option builder ([generate_semgrep_options]), the rule
    stager ([import_rules]) and [vulnerabilities_sorted_by_severity].

    Conventions.
    - Python [str] is [string], [int] is [Z], a list is a [list].
    - A key that the code reads with [d["k"]] is a field of the record that
      models the dict; a key that the code tests with ["k" in d] is an
      [option] field.
    - A model attribute that was never assigned is [None].
    - A call that may raise returns a [Res]. *)

From Stdlib Require Import ZArith Ascii String List Permutation Lia.
From Stdlib Require Import DecimalString DecimalPos DecimalZ.
From stdpp Require Import base option list strings gmap.

Local Open Scope Z_scope.

(** ** Python exceptions and fallible results *)

Module Py.

(** An exception instance: its class name and its [args]. *)
Inductive Arg :=
| AStr (s : string)
| AInt (z : Z)
| ANone.

Record Exn := mkExn { exc_class : string; exc_args : list Arg }.

Inductive Res (A : Type) :=
| Ok (a : A)
| Raise (e : Exn).
Arguments Ok {A} a.
Arguments Raise {A} e.

Definition bind {A B} (m : Res A) (k : A -> Res B) : Res B :=
  match m with
  | Ok a => k a
  | Raise e => Raise e
  end.

Definition returns {A} (m : Res A) : bool :=
  match m with Ok _ => true | Raise _ => false end.

Definition IndexError : Exn :=
  mkExn "IndexError" [AStr "list index out of range"].

Definition FileNotFoundError : Exn :=
  mkExn "FileNotFoundError" [AInt 2; AStr "No such file or directory"].

Definition FileExistsError : Exn :=
  mkExn "FileExistsError" [AInt 17; AStr "File exists"].

Definition StopIteration : Exn := mkExn "StopIteration" [].

(** [l[0]] *)
Definition first {A} (l : list A) : Res A :=
  match l with
  | x :: _ => Ok x
  | [] => Raise IndexError
  end.

(** [sep.join(l)] *)
Fixpoint join (sep : string) (l : list string) : string :=
  match l with
  | [] => ""
  | [x] => x
  | x :: rest => x +:+ sep +:+ join sep rest
  end.

(** [s.split(sep)] for a one-character separator: the pieces between the
    separators, of which there is always at least one. *)
Fixpoint split (sep : ascii) (s : string) : list string :=
  match s with
  | EmptyString => [EmptyString]
  | String c rest =>
      if Ascii.eqb c sep then EmptyString :: split sep rest
      else match split sep rest with
           | piece :: pieces => String c piece :: pieces
           | [] => [String c EmptyString]
           end
  end.

(** [c in s] for a character *)
Fixpoint has_char (c : ascii) (s : string) : bool :=
  match s with
  | EmptyString => false
  | String c' rest => Ascii.eqb c' c || has_char c rest
  end.

(** [filter(None, l)] on strings: the empty string is the only falsy one. *)
Definition truthy (s : string) : bool :=
  match s with EmptyString => false | String _ _ => true end.

Definition filter_None (l : list string) : list string :=
  List.filter truthy l.

(** [str(n)] for an int. *)
Definition str (n : Z) : string := NilZero.string_of_int (Z.to_int n).

(** [os.path.join(a, b)] on POSIX. *)
Definition starts_with_slash (s : string) : bool :=
  match s with String c _ => Ascii.eqb c "/" | EmptyString => false end.

Fixpoint ends_with_slash (s : string) : bool :=
  match s with
  | EmptyString => false
  | String c EmptyString => Ascii.eqb c "/"
  | String _ rest => ends_with_slash rest
  end.

Definition path_join (a b : string) : string :=
  if starts_with_slash b then b
  else if negb (truthy a) || ends_with_slash a then a +:+ b
  else a +:+ "/" +:+ b.

End Py.
Import Py.

Notation "x <- m ;; k" := (Py.bind m (fun x => k))
  (at level 100, m at next level, right associativity).

(** * The model of [app/analysis/util.py] *)

Module Util.

(** ** Data model ([app/analysis/models.py], as far as util.py uses it) *)

Record Position := mkPosition {
  line_start : Z;
  line_end : Z;
  column_start : Z;
  column_end : Z
}.

Record Occurence := mkOccurence {
  file_path : string;
  match_string : string;
  position : Position
}.

Record Vulnerability := mkVulnerability {
  title : string;
  description : option string;
  cwe : option string;
  owasp : option string;
  references : option string;
  severity : option string;
  occurences : list Occurence
}.

(** ** [vulnerabilities_sorted_by_severity] *)

Section SortedBySeverity.

(** [app.constants.SEVERITY_HIGH], [app.constants.SEVERITY_MEDIUM] *)
Variables SEVERITY_HIGH SEVERITY_MEDIUM : string.

(** [c_vulns.severity == LEVEL] *)
Definition severity_is (level : string) (v : Vulnerability) : bool :=
  match severity v with
  | Some s => String.eqb s level
  | None => false
  end.

Definition is_high := severity_is SEVERITY_HIGH.
Definition is_medium := severity_is SEVERITY_MEDIUM.
Definition is_other (v : Vulnerability) : bool :=
  negb (is_high v) && negb (is_medium v).

(** One turn of the loop over [analysis.vulnerabilities]; the state is the
    pair of the two lists [r_vulns] and [low_vulns]. *)
Definition sort_step (st : list Vulnerability * list Vulnerability)
    (c_vulns : Vulnerability) : list Vulnerability * list Vulnerability :=
  let '(r_vulns, low_vulns) := st in
  if is_high c_vulns then (c_vulns :: r_vulns, low_vulns)
  else if is_medium c_vulns then (r_vulns ++ [c_vulns], low_vulns)
  else (r_vulns, low_vulns ++ [c_vulns]).

Definition vulnerabilities_sorted_by_severity
    (vulnerabilities : list Vulnerability) : list Vulnerability :=
  let '(r_vulns, low_vulns) := fold_left sort_step vulnerabilities ([], []) in
  r_vulns ++ low_vulns.

End SortedBySeverity.

(** ** The strip pattern of [load_occurence]

    [pattern = PROJECTS_SRC_PATH + "[\\/]?\d+[\\/]" + EXTRACT_FOLDER_NAME + "[\\/]?"].
    In the Python literal, [\\] is one backslash, so the regular expression
    reads [[\/]?\d+[\/]]: the class [[\/]] holds the escaped slash only.
    The two constants live in [app/constants.py]; they are parameters here
    and are read as literal characters, which is how the code reads them
    as long as they hold no metacharacter of regular expressions (the code
    puts them into the pattern unescaped). Strings are sequences of 8-bit
    characters, so [\d] is one of [0] .. [9]; on a [str] Python also takes
    the decimal digits outside ASCII, which these strings do not have. *)

Module Re.

Inductive atom :=
| AChar (c : ascii)          (* a literal character *)
| ADigit                     (* \d *)
| ASet (cs : list ascii).    (* [...] *)

Inductive item :=
| One (a : atom)             (* a *)
| Opt (a : atom)             (* a? , greedy *)
| Plus (a : atom).           (* a+ , greedy *)

Definition regex := list item.

Definition is_digit (c : ascii) : bool :=
  (48 <=? nat_of_ascii c)%nat && (nat_of_ascii c <=? 57)%nat.

Definition atom_matches (a : atom) (c : ascii) : bool :=
  match a with
  | AChar c' => Ascii.eqb c c'
  | ADigit => is_digit c
  | ASet cs => existsb (Ascii.eqb c) cs
  end.

(** One character matched by [a], then [k] on what follows. *)
Definition match_one (a : atom) (k : string -> option nat) (s : string)
    : option nat :=
  match s with
  | String c rest => if atom_matches a c then S <$> k rest else None
  | EmptyString => None
  end.

(** [a+] followed by [k]: as many characters as possible, giving back one
    at a time until [k] matches. *)
Fixpoint match_plus (a : atom) (k : string -> option nat) (s : string)
    : option nat :=
  match s with
  | String c rest =>
      if atom_matches a c then
        S <$> (match match_plus a k rest with
               | Some n => Some n
               | None => k rest
               end)
      else None
  | EmptyString => None
  end.

(** [re.match] at the head of [s] with a backtracking matcher: the number
    of characters of the match, if there is one. *)
Fixpoint match_here (r : regex) (s : string) : option nat :=
  match r with
  | [] => Some 0%nat
  | One a :: r' => match_one a (match_here r') s
  | Opt a :: r' =>
      match match_one a (match_here r') s with
      | Some n => Some n
      | None => match_here r' s
      end
  | Plus a :: r' => match_plus a (match_here r') s
  end.

(** [re.sub(r, "", s)]: scan from the left; where a match starts, drop it
    and go on after it, else keep the character. [skip] counts the
    characters of the current match still to drop. *)
Fixpoint sub_from (r : regex) (skip : nat) (s : string) : string :=
  match s with
  | EmptyString => EmptyString
  | String c rest =>
      match skip with
      | S n => sub_from r n rest
      | O =>
          match match_here r s with
          | Some (S n) => sub_from r n rest
          | _ => String c (sub_from r 0 rest)
          end
      end
  end.

Definition sub (r : regex) (s : string) : string := sub_from r 0 s.

(** Is there a match starting anywhere in [s]? ([re.search]) *)
Fixpoint search (r : regex) (s : string) : bool :=
  match match_here r s with
  | Some _ => true
  | None =>
      match s with
      | EmptyString => false
      | String _ rest => search r rest
      end
  end.

Fixpoint literal (s : string) : regex :=
  match s with
  | EmptyString => []
  | String c rest => One (AChar c) :: literal rest
  end.


End Re.

Definition strip_pattern (PROJECTS_SRC_PATH EXTRACT_FOLDER_NAME : string)
    : Re.regex :=
  Re.literal PROJECTS_SRC_PATH
  ++ [Re.Opt (Re.ASet ["/"%char]); Re.Plus Re.ADigit; Re.One (Re.ASet ["/"%char])]
  ++ Re.literal EXTRACT_FOLDER_NAME
  ++ [Re.Opt (Re.ASet ["/"%char])].

(** [re.sub(pattern, "", path)] *)
Definition strip (PROJECTS_SRC_PATH EXTRACT_FOLDER_NAME path : string) : string :=
  Re.sub (strip_pattern PROJECTS_SRC_PATH EXTRACT_FOLDER_NAME) path.

(** ** The pattern engine's JSON document *)

(** A value that is a list or a single entry, as the metadata fields
    [cwe] and [owasp] are. *)
Inductive OneOrMany :=
| Single (s : string)
| Many (l : list string).

Record Metadata := mkMetadata {
  md_cwe : option OneOrMany;
  md_owasp : option OneOrMany;
  md_references : option (list string)
}.

Record Extra := mkExtra {
  ex_lines : string;
  ex_message : option string;
  ex_metadata : option Metadata
}.

Record Location := mkLocation { loc_line : Z; loc_col : Z }.

Record SemgrepResult := mkSemgrepResult {
  check_id : string;
  path : string;
  start_ : Location;
  end_ : Location;
  extra : Extra
}.

(** What [semgrep_scan] hands over as [semgrep_output]: the empty string,
    or a JSON text whose value is [null] or an object with or without the
    key ["results"]. *)
Inductive SemgrepOutput :=
| OutEmpty
| OutNull
| OutObject (results : option (list SemgrepResult)).

Section Normalizer.

Variables PROJECTS_SRC_PATH EXTRACT_FOLDER_NAME : string.
(** [app.rules.util.generate_severity] *)
Variable generate_severity : option string -> string.

Definition load_occurence (semgrep_result : SemgrepResult) : Occurence :=
  let clean_path :=
    strip PROJECTS_SRC_PATH EXTRACT_FOLDER_NAME (path semgrep_result) in
  {| file_path := clean_path;
     match_string := ex_lines (extra semgrep_result);
     position :=
       {| line_start := loc_line (start_ semgrep_result);
          line_end := loc_line (end_ semgrep_result);
          column_start := loc_col (start_ semgrep_result);
          column_end := loc_col (end_ semgrep_result) |} |}.

(** [v[0] if type(v) is list else v] *)
Definition first_entry (v : OneOrMany) : Res string :=
  match v with
  | Many l => Py.first l
  | Single s => Ok s
  end.

Definition load_vulnerability (title : string) (semgrep_result : SemgrepResult)
    : Res Vulnerability :=
  let extra := extra semgrep_result in
  let description := ex_message extra in
  match ex_metadata extra with
  | None =>
      Ok {| title := title; description := description; cwe := None;
            owasp := None; references := None; severity := None;
            occurences := [] |}
  | Some metadata =>
      cwe <- match md_cwe metadata with
             | Some v => c <- first_entry v ;; Ok (Some c)
             | None => Ok None
             end ;;
      owasp <- match md_owasp metadata with
               | Some v => o <- first_entry v ;; Ok (Some o)
               | None => Ok None
               end ;;
      Ok {| title := title; description := description; cwe := cwe;
            owasp := owasp;
            references := Py.join " " <$> md_references metadata;
            severity := Some (generate_severity cwe);
            occurences := [] |}
  end.

(** [c_result["check_id"].split(".")[-1]] *)
Definition logical_title (c_result : SemgrepResult) : string :=
  List.last (Py.split "." (check_id c_result)) EmptyString.

Definition add_occurence (o : Occurence) (v : Vulnerability) : Vulnerability :=
  {| title := title v; description := description v; cwe := cwe v;
     owasp := owasp v; references := references v; severity := severity v;
     occurences := occurences v ++ [o] |}.

(** [e_vulns[0].occurences.append(o)] where
    [e_vulns = [v for v in vulns if v.title == title]]: the list holds
    references, so the first vulnerability of that title is the one
    that changes, in place. *)
Fixpoint append_to_first (t : string) (o : Occurence) (vulns : list Vulnerability)
    : list Vulnerability :=
  match vulns with
  | [] => []
  | v :: rest =>
      if String.eqb (title v) t then add_occurence o v :: rest
      else v :: append_to_first t o rest
  end.

(** [v.title == title] *)
Definition title_is (title : string) (v : Vulnerability) : bool :=
  String.eqb (Util.title v) title.

(** The loop of [load_scan_results] works on the local list [vulns]. The
    statement [analysis.vulnerabilities = vulns] stands in the [else]
    branch of the loop body. The analysis is an object of the
    object-relational mapper ([Analysis.query], [db.session.commit()]) and
    [vulnerabilities] is a relationship: the assignment puts the elements
    the list holds at that moment into the collection of the attribute,
    and later appends to [vulns] do not show in it. The elements are
    shared, but the one later change of an element, the append to
    [e_vulns[0].occurences], stands right before the next assignment.
    [assigned] is what the last assignment of this call has stored, if
    there was one. *)
Record ScanLoop := mkScanLoop {
  vulns : list Vulnerability;
  assigned : option (list Vulnerability)
}.

Definition scan_step (st : ScanLoop) (c_result : SemgrepResult) : Res ScanLoop :=
  let title := logical_title c_result in
  let e_vulns := List.filter (title_is title) (vulns st) in
  match e_vulns with
  | [] =>
      n_vuln <- load_vulnerability title c_result ;;
      Ok {| vulns := vulns st ++ [add_occurence (load_occurence c_result) n_vuln];
            assigned := assigned st |}
  | _ :: _ =>
      let vulns := append_to_first title (load_occurence c_result) (vulns st) in
      Ok {| vulns := vulns; assigned := Some vulns |}
  end.

(** The loop; when a turn raises, the exception leaves the function and
    the state is the one reached so far. *)
Fixpoint scan_loop (st : ScanLoop) (results : list SemgrepResult)
    : ScanLoop * option Exn :=
  match results with
  | [] => (st, None)
  | c_result :: rest =>
      match scan_step st c_result with
      | Ok st' => scan_loop st' rest
      | Raise e => (st, Some e)
      end
  end.

(** [load_scan_results(analysis, semgrep_output)] as a function of the
    attribute [analysis.vulnerabilities]: what the attribute holds when
    the call is left, and the exception if it is left by one. *)
Definition load_scan_results (vulnerabilities : list Vulnerability)
    (semgrep_output : SemgrepOutput) : list Vulnerability * option Exn :=
  match semgrep_output with
  | OutObject (Some results) =>
      let '(st, exn) := scan_loop {| vulns := []; assigned := None |} results in
      (default vulnerabilities (assigned st), exn)
  | _ => (vulnerabilities, None)
  end.

(** The occurrences the records [seen] give for the title [t], in order. *)
Definition occurences_of (t : string) (seen : list SemgrepResult) : list Occurence :=
  map load_occurence (List.filter (fun r => String.eqb (logical_title r) t) seen).

(** What the local list [vulns] is after the records [seen]: one
    vulnerability per title met, each with the occurrences of its title in
    encounter order; the attribute has been assigned once a title has come
    twice. *)
Record loop_inv (seen : list SemgrepResult) (st : ScanLoop) : Prop := {
  inv_nodup : List.NoDup (map title (vulns st));
  inv_titles : forall t, In t (map title (vulns st)) <-> In t (map logical_title seen);
  inv_occurences :
    forall v, In v (vulns st) -> occurences v = occurences_of (title v) seen;
  inv_assigned : is_Some (assigned st) <-> ~ List.NoDup (map logical_title seen)
}.

End Normalizer.

(** ** Dependency scanner: records and normalizer *)

Record DepscanRecord := mkDepscanRecord {
  d_id : string;
  d_package : string;
  d_purl : string;
  d_package_type : string;
  d_package_usage : string;
  d_version : string;
  d_fix_version : string;
  d_severity : string;
  d_cvss_score : string;
  d_short_description : string;
  d_related_urls : list string
}.

Record VulnerableDependency := mkVulnerableDependency {
  common_id : string;
  package : string;
  purl : string;
  package_type : string;
  package_usage : string;
  version : string;
  fix_version : string;
  vd_severity : string;
  cvss_score : string;
  short_description : string;
  related_urls : string
}.

Definition vulnerable_dependency (c_result : DepscanRecord) : VulnerableDependency :=
  {| common_id := d_id c_result;
     package := d_package c_result;
     purl := d_purl c_result;
     package_type := d_package_type c_result;
     package_usage := d_package_usage c_result;
     version := d_version c_result;
     fix_version := d_fix_version c_result;
     vd_severity := d_severity c_result;
     cvss_score := d_cvss_score c_result;
     short_description := d_short_description c_result;
     related_urls := Py.join "," (d_related_urls c_result) |}.

(** [load_sca_scan_results]: the assignment
    [analysis.vulnerable_dependencies = vuln_deps] stands in the loop body,
    after the append, so the attribute is assigned at every record and
    keeps its former value when there is none. The state is the local list
    and what the last assignment has stored. *)
Definition load_sca_scan_results (vulnerable_dependencies : list VulnerableDependency)
    (sca_results : list DepscanRecord) : list VulnerableDependency :=
  let '(vuln_deps, assigned) :=
    fold_left (fun st c_result =>
                 let vuln_deps := fst st ++ [vulnerable_dependency c_result] in
                 (vuln_deps, Some vuln_deps))
              sca_results ([], None) in
  default vulnerable_dependencies assigned.

(** ** Code inspector: records and normalizer *)

Record DetailedMatch := mkDetailedMatch {
  ruleName : string;
  ruleDescription : option string;
  dm_pattern : option string;
  fileName : string;
  dm_tags : option (list string);
  startLocationLine : Z;
  startLocationColumn : Z;
  endLocationColumn : Z;
  endLocationLine : Z;
  excerpt : string;
  dm_severity : option string
}.

Inductive InspectorResult :=
| InspEmpty                                                (* "" *)
| InspObject (metaData : option (option (list DetailedMatch))).
                       (* the key "metaData", and in it "detailedMatchList" *)

Record InspectorTag := mkInspectorTag {
  tag_start_line : Z;
  tag_start_column : Z;
  tag_end_column : Z;
  tag_end_line : Z;
  tag_excerpt : string;
  tag_filename : string;
  tag_severity : option string
}.

Record Match := mkMatch {
  m_title : string;
  m_description : option string;
  m_pattern : option string;
  m_filename : option string;
  m_tags : option string;
  m_tag : list InspectorTag
}.

Definition load_match (title : string) (detailed : DetailedMatch) : Match :=
  {| m_title := title;
     m_description := ruleDescription detailed;
     m_pattern := dm_pattern detailed;
     m_filename := Some (fileName detailed);
     m_tags := match dm_tags detailed with
               | Some (t :: _) => Some t
               | _ => None
               end;
     m_tag := [] |}.

Definition load_tags (data_in_detailed : DetailedMatch) : InspectorTag :=
  {| tag_start_line := startLocationLine data_in_detailed;
     tag_start_column := startLocationColumn data_in_detailed;
     tag_end_column := endLocationColumn data_in_detailed;
     tag_end_line := endLocationLine data_in_detailed;
     tag_excerpt := excerpt data_in_detailed;
     tag_filename := fileName data_in_detailed;
     tag_severity := dm_severity data_in_detailed |}.

Definition add_tag (t : InspectorTag) (m : Match) : Match :=
  {| m_title := m_title m; m_description := m_description m;
     m_pattern := m_pattern m; m_filename := m_filename m;
     m_tags := m_tags m; m_tag := m_tag m ++ [t] |}.

Fixpoint append_tag_to_first (t : string) (g : InspectorTag) (l : list Match)
    : list Match :=
  match l with
  | [] => []
  | m :: rest =>
      if String.eqb (m_title m) t then add_tag g m :: rest
      else m :: append_tag_to_first t g rest
  end.

(** The loop state of [load_scan_app_inspector]: the local list [match] and
    what the last assignment [app_inspector.match = match] of this call has
    stored, if there was one (the assignment stands in the [else] branch
    and stores the elements the list holds at that moment, as in
    [load_scan_results]). *)
Definition inspector_step (st : list Match * option (list Match))
    (data_in_detailed : DetailedMatch) : list Match * option (list Match) :=
  let title := ruleName data_in_detailed in
  match List.filter (fun m => String.eqb (m_title m) title) (fst st) with
  | [] => (fst st ++ [add_tag (load_tags data_in_detailed) (load_match title data_in_detailed)],
           snd st)
  | _ :: _ =>
      let match_ := append_tag_to_first title (load_tags data_in_detailed) (fst st) in
      (match_, Some match_)
  end.

Definition load_scan_app_inspector (match_ : list Match)
    (app_inspector_result : InspectorResult) : list Match :=
  match app_inspector_result with
  | InspObject (Some (Some detailed)) =>
      let '(_, assigned) := fold_left inspector_step detailed ([], None) in
      default match_ assigned
  | _ => match_
  end.

(** ** Rule configuration ([app/rules/models.py], read only) *)

Record Language := mkLanguage { extensions : string }.

Record Rule := mkRule {
  r_file_path : string;
  r_repository_name : string;       (* c_rule.repository.name *)
  r_category : string;
  r_title : string
}.

Record RulePack := mkRulePack {
  languages : list Language;
  rules : list Rule
}.

(** ** Projects and analyses *)

Inductive Status :=
| STATUS_PENDING
| STATUS_ANALYZING
| STATUS_FINISHED
| STATUS_ERROR
| STATUS_ABORTED.

Record Project := mkProject {
  project_id : Z;
  status : Status;
  error_message : option string;
  occurences_count : Z;
  risk_level : Z
}.

Record Analysis := mkAnalysis {
  analysis_id : Z;
  started_on : option Z;
  finished_on : option Z;
  task_id : option string;
  ignore_paths : string;
  ignore_filenames : string;
  rule_packs : list RulePack;
  vulnerabilities : list Vulnerability;
  vulnerable_dependencies : list VulnerableDependency
}.

(** The objects one run works on: the analysis, the inspector result set and
    the project both belong to ([analysis.project] and
    [app_inspector.project] are the same object). *)
Record Store := mkStore {
  project : Project;
  analysis : Analysis;
  app_inspector_match : list Match          (* app_inspector.match *)
}.

(** The database session: the objects in memory, their last committed
    image, and the raw-result files written by [save_result], each the
    sequence of texts appended to it. *)
Record Session := mkSession {
  current : Store;
  committed : Store;
  artifacts : gmap string (list SemgrepOutput)
}.

Definition set_project (f : Project -> Project) (st : Store) : Store :=
  {| project := f (project st); analysis := analysis st;
     app_inspector_match := app_inspector_match st |}.

Definition set_analysis (f : Analysis -> Analysis) (st : Store) : Store :=
  {| project := project st; analysis := f (analysis st);
     app_inspector_match := app_inspector_match st |}.

Definition set_match (l : list Match) (st : Store) : Store :=
  {| project := project st; analysis := analysis st; app_inspector_match := l |}.

Definition with_status (s : Status) (p : Project) : Project :=
  {| project_id := project_id p; status := s; error_message := error_message p;
     occurences_count := occurences_count p; risk_level := risk_level p |}.

Definition with_error_message (m : string) (p : Project) : Project :=
  {| project_id := project_id p; status := status p; error_message := Some m;
     occurences_count := occurences_count p; risk_level := risk_level p |}.

Definition with_occurences_count (n : Z) (p : Project) : Project :=
  {| project_id := project_id p; status := status p; error_message := error_message p;
     occurences_count := n; risk_level := risk_level p |}.

Definition with_risk_level (n : Z) (p : Project) : Project :=
  {| project_id := project_id p; status := status p; error_message := error_message p;
     occurences_count := occurences_count p; risk_level := n |}.

Definition with_started_on (t : Z) (a : Analysis) : Analysis :=
  {| analysis_id := analysis_id a; started_on := Some t; finished_on := finished_on a;
     task_id := task_id a; ignore_paths := ignore_paths a;
     ignore_filenames := ignore_filenames a; rule_packs := rule_packs a;
     vulnerabilities := vulnerabilities a;
     vulnerable_dependencies := vulnerable_dependencies a |}.

Definition with_finished_on (t : Z) (a : Analysis) : Analysis :=
  {| analysis_id := analysis_id a; started_on := started_on a; finished_on := Some t;
     task_id := task_id a; ignore_paths := ignore_paths a;
     ignore_filenames := ignore_filenames a; rule_packs := rule_packs a;
     vulnerabilities := vulnerabilities a;
     vulnerable_dependencies := vulnerable_dependencies a |}.

Definition with_task_id (t : string) (a : Analysis) : Analysis :=
  {| analysis_id := analysis_id a; started_on := started_on a; finished_on := finished_on a;
     task_id := Some t; ignore_paths := ignore_paths a;
     ignore_filenames := ignore_filenames a; rule_packs := rule_packs a;
     vulnerabilities := vulnerabilities a;
     vulnerable_dependencies := vulnerable_dependencies a |}.

Definition with_vulnerabilities (l : list Vulnerability) (a : Analysis) : Analysis :=
  {| analysis_id := analysis_id a; started_on := started_on a; finished_on := finished_on a;
     task_id := task_id a; ignore_paths := ignore_paths a;
     ignore_filenames := ignore_filenames a; rule_packs := rule_packs a;
     vulnerabilities := l;
     vulnerable_dependencies := vulnerable_dependencies a |}.

Definition with_vulnerable_dependencies (l : list VulnerableDependency) (a : Analysis)
    : Analysis :=
  {| analysis_id := analysis_id a; started_on := started_on a; finished_on := finished_on a;
     task_id := task_id a; ignore_paths := ignore_paths a;
     ignore_filenames := ignore_filenames a; rule_packs := rule_packs a;
     vulnerabilities := vulnerabilities a;
     vulnerable_dependencies := l |}.

(** [db.session.commit()] *)
Definition commit (s : Session) : Session :=
  {| current := current s; committed := current s; artifacts := artifacts s |}.

Definition update (f : Store -> Store) (s : Session) : Session :=
  {| current := f (current s); committed := committed s; artifacts := artifacts s |}.

(** ** What a run meets outside the program *)

(** A structured engine error: its class, and its attribute [long_msg]
    when the object has one (only the errors that carry a span do; the
    value can be [None]). *)
Record StructuredError := mkStructuredError {
  error_class : string;
  long_msg : option (option string)
}.

(** [e.long_msg] *)
Definition get_long_msg (e : StructuredError) : Res (option string) :=
  match long_msg e with
  | Some v => Ok v
  | None =>
      Raise (mkExn "AttributeError"
               [AStr ("'" +:+ error_class e +:+ "' object has no attribute 'long_msg'")])
  end.

(** How the call of [semgrep_main.main] inside [semgrep_scan] ends. *)
Inductive EngineOutcome :=
| EngineReturns (output : SemgrepOutput)
    (* it returns, and [_build_output()] gives this text *)
| EngineSemgrepError (err : Exn) (semgrep_structured_errors : list StructuredError)
    (* it raises [err], an instance of SemgrepError, while the output
       handler holds these structured errors *)
| EngineOtherError (err : Exn).
    (* it raises an exception that is no SemgrepError *)

Record World := mkWorld {
  request_id : string;                       (* self.request.id *)
  now_started : Z;                           (* the first datetime.now() *)
  now_finished : Z;                          (* the second datetime.now() *)
  glob : string -> bool -> list string;      (* glob(pathname, recursive) *)
  subprocess_run : list string -> option Exn;
    (* subprocess.run(args) without check: None when the process could be
       started, whatever its exit code *)
  readable : gmap string (list string);
    (* the text files [open(name, "r")] finds, as their lines *)
  json_loads : string -> Res DepscanRecord;  (* json.loads on one line *)
  cpu_count : nat;                           (* multiprocessing.cpu_count() *)
  semgrep_main : list string -> nat -> list string -> gset string -> EngineOutcome;
    (* target, jobs, configs, exclude *)
  application_inspector_scan : Z -> Res InspectorResult
}.

Definition arg_of_option (o : option string) : Arg :=
  match o with Some s => AStr s | None => ANone end.

(** How a run of the task ends: it returns, or an exception leaves it. *)
Inductive Run :=
| Returned (s : Session)
| Escaped (e : Exn) (s : Session).

Definition session_of (r : Run) : Session :=
  match r with Returned s | Escaped _ s => s end.

Definition escaped (r : Run) : option Exn :=
  match r with Returned _ => None | Escaped e _ => Some e end.

(** ** Scan options, scanner adapters and the orchestrator *)

Section Pipeline.

(** [app.constants] *)
Variables PROJECTS_SRC_PATH EXTRACT_FOLDER_NAME : string.
Variables BOM_FILE CDXGEN DEPSCAN DEPSCAN_RESULT_FILE : string.
(** [app.rules.util.generate_severity] *)
Variable generate_severity : option string -> string.
(** [app.projects.util.count_occurences], [calculate_risk_level]: they
    read the project and, through it, its analysis. *)
Variables count_occurences calculate_risk_level : Store -> Z.
(** [repr] of a [str] *)
Variable repr_str : string -> string.

Variable w : World.

(** *** [generate_semgrep_options] *)

Definition scan_path (p : Project) : string :=
  path_join (path_join PROJECTS_SRC_PATH (Py.str (project_id p))) EXTRACT_FOLDER_NAME.

Definition project_rules_path (p : Project) : string :=
  path_join (path_join PROJECTS_SRC_PATH (Py.str (project_id p))) "rules".

(** The glob pattern for one extension:
    [os.path.join(scan_path, "**", "*" + c_ext)] *)
Definition ext_pattern (p : Project) (c_ext : string) : string :=
  path_join (path_join (scan_path p) "**") ("*" +:+ c_ext).

Definition language_files (p : Project) (c_language : Language) : list string :=
  flat_map (fun c_ext => glob w (ext_pattern p c_ext) true)
           (Py.filter_None (Py.split "," (extensions c_language))).

Definition files_to_scan (p : Project) (a : Analysis) : list string :=
  flat_map (fun c_rule_pack => flat_map (language_files p) (languages c_rule_pack))
           (rule_packs a).

Definition ignore_set (a : Analysis) : gset string :=
  list_to_set (Py.filter_None (Py.split "," (ignore_filenames a))).

Definition generate_semgrep_options (st : Store)
    : list string * string * gset string :=
  (files_to_scan (project st) (analysis st),
   project_rules_path (project st),
   ignore_set (analysis st)).

(** *** [sca_scan] *)

Definition run (args : list string) : Res unit :=
  match subprocess_run w args with
  | None => Ok tt
  | Some e => Raise e
  end.

(** [for line in open(result_file, "r")] *)
Definition open_lines (name : string) : Res (list string) :=
  match readable w !! name with
  | Some lines => Ok lines
  | None => Raise FileNotFoundError
  end.

Fixpoint loads_all (lines : list string) : Res (list DepscanRecord) :=
  match lines with
  | [] => Ok []
  | line :: rest =>
      r <- json_loads w line ;;
      rs <- loads_all rest ;;
      Ok (r :: rs)
  end.

Definition sca_scan (p : Project) : Res (list DepscanRecord) :=
  let source_path :=
    path_join (path_join PROJECTS_SRC_PATH (Py.str (project_id p))) EXTRACT_FOLDER_NAME in
  let output_folder := path_join PROJECTS_SRC_PATH (Py.str (project_id p)) in
  let bom_file := path_join output_folder BOM_FILE in
  _ <- run [CDXGEN; "-r"; source_path; "-o"; bom_file] ;;
  _ <- run [DEPSCAN; "--no-banner"; "--no-error"; "--src"; source_path;
            "--bom"; bom_file; "--reports-dir"; output_folder] ;;
  let result_file := path_join output_folder DEPSCAN_RESULT_FILE in
  lines <- open_lines result_file ;;
  loads_all lines.

(** *** [semgrep_scan] *)

Definition semgrep_scan (files : list string) (rules_path : string)
    (ignore : gset string) : Res SemgrepOutput :=
  match semgrep_main w files (cpu_count w) [rules_path] ignore with
  | EngineReturns output => Ok output
  | EngineSemgrepError _ semgrep_structured_errors =>
      e0 <- Py.first semgrep_structured_errors ;;
      msg <- get_long_msg e0 ;;
      Raise (mkExn "Exception" [AStr "SemgrepError"; arg_of_option msg])
  | EngineOtherError err => Raise err
  end.

(** *** [save_result] *)

Definition result_filename (st : Store) : string :=
  path_join (path_join PROJECTS_SRC_PATH (Py.str (project_id (project st))))
            ("analysis_" +:+ Py.str (analysis_id (analysis st)) +:+ ".json").

(** [open(filename, "a")], [write], [close] *)
Definition save_result (semgrep_result : SemgrepOutput) (s : Session) : Session :=
  let filename := result_filename (current s) in
  {| current := current s; committed := committed s;
     artifacts := <[filename := default [] (artifacts s !! filename) ++ [semgrep_result]]>
                    (artifacts s) |}.

(** *** [async_scan] *)

Definition repr_arg (a : Arg) : string :=
  match a with
  | AStr s => repr_str s
  | AInt z => Py.str z
  | ANone => "None"
  end.

(** [repr(e)] of an exception: the class name and the arguments in
    parentheses. *)
Definition repr (e : Exn) : string :=
  exc_class e +:+ "(" +:+ Py.join ", " (repr_arg <$> exc_args e) +:+ ")".

(** The [try] block: the three scanners, in the order of the code. *)
Definition scan_phase (st : Store) (opts : list string * string * gset string)
    : Res (list DepscanRecord * SemgrepOutput * InspectorResult) :=
  let '(files, rules_path, ignore) := opts in
  sca_result <- sca_scan (project st) ;;
  semgrep_result <- semgrep_scan files rules_path ignore ;;
  app_inspector_result <- application_inspector_scan w (project_id (project st)) ;;
  Ok (sca_result, semgrep_result, app_inspector_result).

(** The statements after the [try]: lines 100 to 105. *)
Definition finish (s : Session) : Session :=
  let s := update (set_analysis (with_finished_on (now_finished w))) s in
  let s := update (set_analysis (with_task_id "")) s in
  let s := update (fun st => set_project (with_occurences_count (count_occurences st)) st) s in
  let s := update (fun st => set_project (with_risk_level (calculate_risk_level st)) st) s in
  commit s.


(** The statements before the [try]: lines 72 to 75. *)
Definition start (s : Session) : Session :=
  let s := update (set_analysis (with_started_on (now_started w))) s in
  let s := update (set_project (with_status STATUS_ANALYZING)) s in
  let s := update (set_analysis (with_task_id (request_id w))) s in
  commit s.

(** The options, which are prepared just before, and the [try] block. *)
Definition try_block (s : Session)
    : Res (list DepscanRecord * SemgrepOutput * InspectorResult) :=
  scan_phase (current s) (generate_semgrep_options (current s)).

Definition async_scan (s : Session) : Run :=
  let s := start s in
  match try_block s with
  | Raise e =>
      let s := update (set_project (with_error_message (repr e))) s in
      let s := update (set_project (with_status STATUS_ERROR)) s in
      Returned (finish s)
  | Ok (sca_result, semgrep_result, app_inspector_result) =>
      let '(vulns, exn) :=
        load_scan_results PROJECTS_SRC_PATH EXTRACT_FOLDER_NAME generate_severity
          (vulnerabilities (analysis (current s))) semgrep_result in
      let s := update (set_analysis (with_vulnerabilities vulns)) s in
      match exn with
      | Some e => Escaped e s
      | None =>
          let s := update (set_analysis (fun a =>
                     with_vulnerable_dependencies
                       (load_sca_scan_results (vulnerable_dependencies a) sca_result) a)) s in
          let s := update (fun st =>
                     set_match (load_scan_app_inspector (app_inspector_match st)
                                  app_inspector_result) st) s in
          let s := save_result semgrep_result s in
          let s := update (set_project (with_status STATUS_FINISHED)) s in
          Returned (finish s)
      end
  end.

End Pipeline.

(** ** [import_rules]

    The file system, as far as the rule stager meets it: regular files by
    path, and folders by path, each with its entries by name. The folder
    that holds [rule_folder] is taken to exist. An entry is addressed by
    [os.path.join(rule_folder, name)]; a name that holds a slash addresses
    no entry of the folder, and the copy is modelled as failing on it (a
    fresh folder has no subfolder to receive it). *)

Record FS := mkFS {
  regular : gmap string string;
  folders : gmap string (gmap string string)
}.

Fixpoint has_slash (s : string) : bool :=
  match s with
  | EmptyString => false
  | String c rest => Ascii.eqb c "/" || has_slash rest
  end.

Section RuleStager.

(** [app.constants.RULES_PATH]; [RULE_EXTENSIONS] in its iteration order *)
Variable RULES_PATH : string.
Variable RULE_EXTENSIONS : list string.

(** [os.path.isdir] *)
Definition isdir (name : string) (fs : FS) : bool :=
  bool_decide (is_Some (folders fs !! name)).

(** [shutil.rmtree] *)
Definition rmtree (name : string) (fs : FS) : FS :=
  {| regular := regular fs; folders := delete name (folders fs) |}.

(** [os.mkdir] *)
Definition mkdir (name : string) (fs : FS) : Res FS :=
  if bool_decide (is_Some (folders fs !! name)) || bool_decide (is_Some (regular fs !! name))
  then Raise FileExistsError
  else Ok {| regular := regular fs; folders := <[name := ∅]> (folders fs) |}.

(** [shutil.copyfile(src, os.path.join(folder, name))] *)
Definition copyfile (src folder name : string) (fs : FS) : Res FS :=
  match regular fs !! src, folders fs !! folder with
  | Some content, Some entries =>
      if has_slash name then Raise FileNotFoundError
      else Ok {| regular := regular fs;
                 folders := <[folder := <[name := content]> entries]> (folders fs) |}
  | _, _ => Raise FileNotFoundError
  end.

(** [next(iter(RULE_EXTENSIONS))] *)
Definition next_iter (l : list string) : Res string :=
  match l with
  | x :: _ => Ok x
  | [] => Raise StopIteration
  end.

(** The generated name of a staged rule, given the extension. *)
Definition staged_name (ext : string) (c_rule : Rule) : string :=
  r_repository_name c_rule +:+ "_" +:+ r_category c_rule +:+ "."
    +:+ r_title c_rule +:+ ext.

(** The body of the inner loop. *)
Definition import_rule (rule_folder : string) (fs : FS) (c_rule : Rule) : Res FS :=
  let src := path_join RULES_PATH (r_file_path c_rule) in
  ext <- next_iter RULE_EXTENSIONS ;;
  copyfile src rule_folder (staged_name ext c_rule) fs.

Fixpoint import_loop (rule_folder : string) (fs : FS) (l : list Rule)
    : FS * option Exn :=
  match l with
  | [] => (fs, None)
  | c_rule :: rest =>
      match import_rule rule_folder fs c_rule with
      | Ok fs' => import_loop rule_folder fs' rest
      | Raise e => (fs, Some e)
      end
  end.

(** [import_rules(analysis, rule_folder)]: the file system it leaves, and
    the exception if it is left by one. *)
Definition import_rules (a : Analysis) (rule_folder : string) (fs : FS)
    : FS * option Exn :=
  let fs := if isdir rule_folder fs then rmtree rule_folder fs else fs in
  match mkdir rule_folder fs with
  | Raise e => (fs, Some e)
  | Ok fs => import_loop rule_folder fs (flat_map rules (rule_packs a))
  end.

(** The entries the staged folder is meant to hold: for each rule of the
    selected packs, in order, the content of its source under its name; a
    later rule of the same name replaces an earlier one. *)
Definition stage_entry (ext : string) (fs : FS) (m : gmap string string)
    (c_rule : Rule) : gmap string string :=
  match regular fs !! path_join RULES_PATH (r_file_path c_rule) with
  | Some content => <[staged_name ext c_rule := content]> m
  | None => m
  end.

Definition staged_entries (ext : string) (fs : FS) (l : list Rule)
    : gmap string string :=
  fold_left (stage_entry ext fs) l ∅.

End RuleStager.

(** ** [stop_analysis]

    [celery.control.revoke(task_id, terminate=True, signal="SIGKILL")] is a
    message to the workers; the model hands back, beside the session, the
    task id that is revoked. *)

Definition stop_analysis (s : Session) : Session * option string :=
  let task_id := task_id (analysis (current s)) in
  let s := update (set_project (with_status STATUS_ABORTED)) s in
  let s := update (set_analysis (with_task_id "")) s in
  (commit s, task_id).

(** ** Reference points for the normalizers *)

(** The first record of a given title: the one [load_scan_results] makes
    the vulnerability from. *)
Fixpoint first_of_title (t : string) (results : list SemgrepResult)
    : option SemgrepResult :=
  match results with
  | [] => None
  | r :: rest =>
      if String.eqb (logical_title r) t then Some r else first_of_title t rest
  end.

(** The tags the inspector records [seen] give for the rule name [t], and
    the first record of that rule name. *)
Definition tags_of (t : string) (seen : list DetailedMatch) : list InspectorTag :=
  map load_tags (List.filter (fun d => String.eqb (ruleName d) t) seen).

Fixpoint first_of_rule (t : string) (detailed : list DetailedMatch)
    : option DetailedMatch :=
  match detailed with
  | [] => None
  | d :: rest =>
      if String.eqb (ruleName d) t then Some d else first_of_rule t rest
  end.

(** What the local list [match] of [load_scan_app_inspector] is after the
    records [seen]. *)
Record inspector_inv (seen : list DetailedMatch)
    (st : list Match * option (list Match)) : Prop := {
  iinv_nodup : List.NoDup (map m_title (fst st));
  iinv_titles : forall t, In t (map m_title (fst st)) <-> In t (map ruleName seen);
  iinv_matches :
    forall m, In m (fst st) ->
      exists d, first_of_rule (m_title m) seen = Some d
                /\ m = {| m_title := m_title m;
                          m_description := ruleDescription d;
                          m_pattern := dm_pattern d;
                          m_filename := Some (fileName d);
                          m_tags := match dm_tags d with
                                    | Some (t :: _) => Some t
                                    | _ => None
                                    end;
                          m_tag := tags_of (m_title m) seen |};
  iinv_assigned : is_Some (snd st) <-> ~ List.NoDup (map ruleName seen)
}.

(** Is the metadata entry an empty list, the one value whose first entry
    cannot be taken? *)
Definition is_empty_list (v : option OneOrMany) : bool :=
  match v with
  | Some (Many []) => true
  | _ => false
  end.

(** Does the record carry metadata on which [load_vulnerability] fails? *)
Definition bad_metadata (r : SemgrepResult) : bool :=
  match ex_metadata (extra r) with
  | Some md => is_empty_list (md_cwe md) || is_empty_list (md_owasp md)
  | None => false
  end.

Definition with_ignore_paths (p : string) (a : Analysis) : Analysis :=
  {| analysis_id := analysis_id a; started_on := started_on a; finished_on := finished_on a;
     task_id := task_id a; ignore_paths := p;
     ignore_filenames := ignore_filenames a; rule_packs := rule_packs a;
     vulnerabilities := vulnerabilities a;
     vulnerable_dependencies := vulnerable_dependencies a |}.

(** A string of decimal digits. *)
Fixpoint all_digits (s : string) : bool :=
  match s with
  | EmptyString => true
  | String c rest => Re.is_digit c && all_digits rest
  end.

(** The project directory, with the slash [os.path.join] puts after it. *)
Definition joined_root (PROJECTS_SRC_PATH : string) : string :=
  if negb (Py.truthy PROJECTS_SRC_PATH) || Py.ends_with_slash PROJECTS_SRC_PATH
  then PROJECTS_SRC_PATH else PROJECTS_SRC_PATH +:+ "/".


(** A vulnerability with its occurrences replaced. *)
Definition set_occurences (os : list Occurence) (v : Vulnerability) : Vulnerability :=
  {| title := title v; description := description v; cwe := cwe v;
     owasp := owasp v; references := references v; severity := severity v;
     occurences := os |}.

(** The titles of a list in the order in which each is met first. *)
Definition first_seen (titles : list string) : list string :=
  fold_left (fun acc t => if existsb (String.eqb t) acc then acc else acc ++ [t])
            titles [].

(** What the local list [vulns] of [load_scan_results] is after the
    records [seen], beyond [loop_inv]: the vulnerabilities stand in the
    order in which their titles were met first, and each is the one
    [load_vulnerability] made from the first record of its title. *)
Record group_inv (PROJECTS_SRC_PATH EXTRACT_FOLDER_NAME : string)
    (generate_severity : option string -> string)
    (seen : list SemgrepResult) (st : ScanLoop) : Prop := {
  ginv_base : loop_inv PROJECTS_SRC_PATH EXTRACT_FOLDER_NAME seen st;
  ginv_order : map title (vulns st) = first_seen (map logical_title seen);
  ginv_heads :
    forall v, In v (vulns st) ->
      exists r v0,
        first_of_title (title v) seen = Some r
        /\ load_vulnerability generate_severity (title v) r = Ok v0
        /\ v = set_occurences (occurences v) v0
}.

(** A match with its tags replaced. *)
Definition set_tag (ts : list InspectorTag) (m : Match) : Match :=
  {| m_title := m_title m; m_description := m_description m;
     m_pattern := m_pattern m; m_filename := m_filename m;
     m_tags := m_tags m; m_tag := ts |}.

End Util.
Import Util.

(** * The model of [app/analysis/routes.py]

    The views, as far as they work on what the pipeline stores: each is a
    function from the request and the stored objects to a response. *)

Module Routes.

(** ** [analysis_workbench] *)

Inductive WorkbenchResponse :=
| WorkbenchNotFound                                   (* first_or_404 *)
| WorkbenchNoFindings                                 (* flash, redirect to the projects list *)
| WorkbenchPage (vulnerabilities : list Vulnerability). (* analysis_workbench.html *)

Section Workbench.

Variables SEVERITY_HIGH SEVERITY_MEDIUM : string.
(** [Analysis.query.filter_by(id=analysis_id).first()] *)
Variable analyses : gmap Z Analysis.

Definition analysis_workbench (analysis_id : Z) : WorkbenchResponse :=
  match analyses !! analysis_id with
  | None => WorkbenchNotFound
  | Some analysis =>
      if (Z.of_nat (length (vulnerabilities analysis)) <=? 0)%Z
      then WorkbenchNoFindings
      else WorkbenchPage
             (vulnerabilities_sorted_by_severity SEVERITY_HIGH SEVERITY_MEDIUM
                (vulnerabilities analysis))
  end.

End Workbench.

(** ** [analysis_codeview] *)

(** [os.path.commonprefix((a, b))]: the longest common prefix, taken
    character by character. *)
Fixpoint commonprefix (a b : string) : string :=
  match a, b with
  | String c a', String d b' =>
      if Ascii.eqb c d then String c (commonprefix a' b') else EmptyString
  | _, _ => EmptyString
  end.

(** The lines to highlight. *)
Definition hl_lines (p : Position) : string :=
  if (line_start p <? line_end p)%Z
  then Py.str (line_start p) +:+ "-" +:+ Py.str (line_end p)
  else Py.str (line_start p).

Inductive CodeviewResponse :=
| CodeviewNotFound                                    (* first_or_404 *)
| CodeviewForbidden                                   (* "", 403 *)
| CodeviewRaised (e : Exn)                            (* open() raises *)
| CodeviewPage (code language hl_lines path : string).

Section Codeview.

Variables PROJECTS_SRC_PATH EXTRACT_FOLDER_NAME : string.
(** [Occurence.query.filter_by(id=occurence_id).first()], with the id of
    the project the occurrence belongs to
    ([occurence.vulnerability.analysis.project.id]) *)
Variable stored_occurences : gmap Z (Occurence * Z).
(** [os.path.realpath] *)
Variable realpath : string -> string.
(** [open(file, "r")] and [f.read()]: the text, or the error raised *)
Variable open_read : string -> Res string.
(** [guess_lexer_for_filename(file, code).name], [None] for ClassNotFound *)
Variable guess_lexer_for_filename : string -> string -> option string.

Definition source_path (project_id : Z) : string :=
  path_join (path_join PROJECTS_SRC_PATH (Py.str project_id)) EXTRACT_FOLDER_NAME.

(** The path-traversal test of the view: does it let the file through? *)
Definition inside_source (file source_path : string) : bool :=
  String.eqb (commonprefix (realpath file) (realpath source_path))
             (realpath source_path).

Definition analysis_codeview (occurence_id : Z) : CodeviewResponse :=
  match stored_occurences !! occurence_id with
  | None => CodeviewNotFound
  | Some (occurence, project_id) =>
      let source_path := source_path project_id in
      let file := path_join source_path (file_path occurence) in
      if negb (inside_source file source_path) then CodeviewForbidden
      else
        match open_read file with
        | Raise e => CodeviewRaised e
        | Ok code =>
            let language :=
              match guess_lexer_for_filename file code with
              | Some name => name
              | None => "generic"
              end in
            CodeviewPage code language (hl_lines (position occurence))
              (file_path occurence)
        end
  end.

End Codeview.

End Routes.

(** ** Sample data *)

Definition sample_location (l c : Z) : Location := {| loc_line := l; loc_col := c |}.

Definition sample_extra : Extra :=
  {| ex_lines := "cursor.execute(q % name)";
     ex_message := Some "SQL built by string formatting";
     ex_metadata := Some {| md_cwe := Some (Many ["CWE-89"; "CWE-564"]);
                            md_owasp := Some (Single "A1: Injection");
                            md_references := Some ["https://cwe.mitre.org/89"] |} |}.

Definition sample_result (id p : string) (l1 l2 : Z) : SemgrepResult :=
  {| check_id := id; path := p;
     start_ := sample_location l1 1; end_ := sample_location l2 9;
     extra := sample_extra |}.


(** A record whose end line lies before its start line. *)
Definition backwards_result : SemgrepResult :=
  sample_result "rules.python.sqli" "data/projects/7/extract/app/db.py" 5 3.

(** A record whose rule metadata holds an empty list of CWE ids. *)
Definition empty_cwe_result : SemgrepResult :=
  {| check_id := "rules.python.debug"; path := "data/projects/7/extract/app/run.py";
     start_ := sample_location 10 1; end_ := sample_location 10 20;
     extra := {| ex_lines := "app.run(debug=True)";
                 ex_message := None;
                 ex_metadata := Some {| md_cwe := Some (Many []);
                                        md_owasp := None;
                                        md_references := None |} |} |}.

Definition sqli_1 : SemgrepResult :=
  sample_result "rules.python.sqli" "data/projects/7/extract/app/db.py" 12 12.
Definition sqli_2 : SemgrepResult :=
  sample_result "rules.python.sqli" "data/projects/7/extract/app/admin.py" 40 41.
Definition xss_1 : SemgrepResult :=
  sample_result "rules.python.flask.xss" "data/projects/7/extract/app/views.py" 3 3.

Definition sample_severity (cwe : option string) : string :=
  match cwe with
  | Some "CWE-89" => "high"
  | Some _ => "medium"
  | None => "low"
  end.

Definition sample_project : Project :=
  {| project_id := 7; status := STATUS_PENDING; error_message := None;
     occurences_count := 0; risk_level := 0 |}.

Definition sample_pack : RulePack :=
  {| languages := [ {| extensions := ".py,.pyw," |} ];
     rules := [ {| r_file_path := "community/python/sqli.yaml";
                   r_repository_name := "community";
                   r_category := "python"; r_title := "sqli" |};
                {| r_file_path := "community/python/xss.yaml";
                   r_repository_name := "community";
                   r_category := "python"; r_title := "xss" |} ] |}.

Definition sample_analysis : Analysis :=
  {| analysis_id := 3; started_on := None; finished_on := None; task_id := None;
     ignore_paths := ""; ignore_filenames := "*.min.js,,tests";
     rule_packs := [sample_pack];
     vulnerabilities := []; vulnerable_dependencies := [] |}.

Definition sample_store : Store :=
  {| project := sample_project; analysis := sample_analysis;
     app_inspector_match := [] |}.

Definition sample_session : Session :=
  {| current := sample_store; committed := sample_store; artifacts := ∅ |}.

Definition sample_count (st : Store) : Z :=
  Z.of_nat (length (flat_map occurences (vulnerabilities (analysis st)))).

Definition sample_risk (st : Store) : Z :=
  if (0 <? occurences_count (project st)) then 50 else 0.

Definition sample_repr_str (s : string) : string := "'" +:+ s +:+ "'".

Definition JSONDecodeError : Exn :=
  mkExn "JSONDecodeError" [AStr "Expecting value: line 1 column 1 (char 0)"].

(** A world in which the three scanners succeed: the engine reports
    [output], the dependency result file holds [lines] (or is missing),
    the inspector reports nothing. *)
Definition sample_world (depscan_lines : option (list string))
    (engine : EngineOutcome) : World :=
  {| request_id := "b2f1";
     now_started := 1000;
     now_finished := 1060;
     glob := fun pattern recursive =>
       if String.eqb pattern "data/projects/7/extract/**/*.py" && recursive
       then ["data/projects/7/extract/app/db.py"] else [];
     subprocess_run := fun _ => None;
     readable := match depscan_lines with
                 | Some lines => {[ "data/projects/7/depscan-bom.json" := lines ]}
                 | None => ∅
                 end;
     json_loads := fun _ => Raise JSONDecodeError;
     cpu_count := 4;
     semgrep_main := fun _ _ _ _ => engine;
     application_inspector_scan := fun _ => Ok InspEmpty |}.

(** The orchestrator on sample constants. *)
Definition sample_async_scan (w : World) (s : Session) : Run :=
  async_scan "data/projects/" "extract" "bom.json" "cdxgen" "depscan"
    "depscan-bom.json" sample_severity sample_count sample_risk sample_repr_str w s.

Definition sample_try_block (w : World) (s : Session)
    : Res (list DepscanRecord * SemgrepOutput * InspectorResult) :=
  try_block "data/projects/" "extract" "bom.json" "cdxgen" "depscan"
    "depscan-bom.json" w s.

Definition sample_sca_scan (w : World) (p : Project) : Res (list DepscanRecord) :=
  sca_scan "data/projects/" "extract" "bom.json" "cdxgen" "depscan"
    "depscan-bom.json" w p.

Definition sample_load_scan_results :=
  load_scan_results "data/projects/" "extract" sample_severity.

(** Engine outputs: three findings of two titles; a finding whose rule has
    an empty CWE list, after a regular one; that finding alone. *)
Definition good_output : SemgrepOutput := OutObject (Some [sqli_1; sqli_2; xss_1]).
Definition empty_cwe_output : SemgrepOutput := OutObject (Some [sqli_1; empty_cwe_result]).

(** The three scanners succeed; the dependency result file is empty. *)
Definition good_world : World := sample_world (Some []) (EngineReturns good_output).
Definition empty_cwe_world : World :=
  sample_world (Some []) (EngineReturns empty_cwe_output).

(** The dependency result file is missing. *)
Definition missing_file_world : World := sample_world None (EngineReturns good_output).

(** The engine finds no configuration in the staged rule folder: it raises a
    SemgrepError without having recorded a structured error. *)
Definition no_config_error : Exn :=
  mkExn "SemgrepError" [AStr "You need to specify a config"].
Definition no_config_world : World :=
  sample_world (Some []) (EngineSemgrepError no_config_error []).

(** The engine raises after having recorded two structured errors. *)
Definition invalid_rule_error : Exn :=
  mkExn "SemgrepError" [AStr "no valid configuration file found (2 configs were invalid)"].
Definition invalid_rule_world : World :=
  sample_world (Some [])
    (EngineSemgrepError invalid_rule_error
       [ {| error_class := "InvalidRuleSchemaError";
            long_msg := Some (Some "Invalid rule schema: sqli.yaml") |};
         {| error_class := "InvalidRuleSchemaError";
            long_msg := Some (Some "Invalid rule schema: xss.yaml") |} ]).

(** A rule store with the two rules of [sample_pack], and a project folder
    whose rule folder still holds a file of an earlier staging. *)
Definition sample_fs : FS :=
  {| regular := {[ "data/rules/community/python/sqli.yaml" := "rules: [sqli]";
                   "data/rules/community/python/xss.yaml" := "rules: [xss]" ]};
     folders := {[ "data/projects/7/rules" :=
                     {[ "community_java.xxe.yaml" := "rules: [xxe]" ]} ]} |}.

Definition sample_import_rules (a : Analysis) (fs : FS) : FS * option Exn :=
  import_rules "data/rules/" [".yaml"; ".yml"] a "data/projects/7/rules" fs.

Definition sample_vuln (t : string) (sev : option string) : Vulnerability :=
  {| title := t; description := None; cwe := None; owasp := None;
     references := None; severity := sev; occurences := [] |}.

(** In encounter order: low, high, medium, high, (no severity), medium. *)
Definition mixed_vulns : list Vulnerability :=
  [ sample_vuln "a" (Some "low"); sample_vuln "b" (Some "high");
    sample_vuln "c" (Some "medium"); sample_vuln "d" (Some "high");
    sample_vuln "e" None; sample_vuln "f" (Some "medium") ].

(** The entries of a folder, as a list of names and contents. *)
Definition listing (fs : FS) (folder : string) : option (list (string * string)) :=
  map_to_list <$> folders fs !! folder.

(** Records of the code inspector. *)
Definition sample_detailed (rule file : string) (line : Z) : DetailedMatch :=
  {| ruleName := rule;
     ruleDescription := Some "Use of a cryptographic hash";
     dm_pattern := Some "md5";
     fileName := file;
     dm_tags := Some ["Cryptography.HashAlgorithm"];
     startLocationLine := line;
     startLocationColumn := 5;
     endLocationColumn := 8;
     endLocationLine := line;
     excerpt := "hashlib.md5(data)";
     dm_severity := Some "moderate" |}.

Definition hash_1 : DetailedMatch := sample_detailed "Hash" "app/db.py" 12.
Definition http_1 : DetailedMatch := sample_detailed "Http" "app/views.py" 3.
Definition hash_2 : DetailedMatch := sample_detailed "Hash" "app/admin.py" 40.

(** A stored occurrence whose path climbs out of the source folder into a
    sibling folder, and [os.path.realpath] on the paths met: the climbing
    path is resolved, every other path is its own real path. *)
Definition sibling_occurence : Occurence :=
  {| file_path := "../extract_old/secret.py";
     match_string := "";
     position := {| line_start := 1; line_end := 1; column_start := 1; column_end := 1 |} |}.

Definition sample_realpath (p : string) : string :=
  if String.eqb p "data/projects/7/extract/../extract_old/secret.py"
  then "data/projects/7/extract_old/secret.py"
  else p.

Definition sample_open_read (p : string) : Res string :=
  if String.eqb p "data/projects/7/extract/../extract_old/secret.py"
  then Ok "key = 1"
  else Raise FileNotFoundError.

(** A rule store that lacks the second rule of [sample_pack]. *)
Definition partial_fs : FS :=
  {| regular := {[ "data/rules/community/python/sqli.yaml" := "rules: [sqli]" ]};
     folders := {[ "data/projects/7/rules" :=
                     {[ "community_java.xxe.yaml" := "rules: [xxe]" ]} ]} |}.

(** The engine reports two findings of two titles. *)
Definition distinct_output : SemgrepOutput := OutObject (Some [sqli_1; xss_1]).
Definition distinct_world : World := sample_world (Some []) (EngineReturns distinct_output).

(** * Properties *)

(** ** Strings: texts, decimal numbers, joined paths *)

Lemma str_app_cons (x : ascii) (a b : string) :
  String x a +:+ b = String x (a +:+ b).
Proof. reflexivity. Qed.

Lemma str_app_assoc (a b c : string) : (a +:+ b) +:+ c = a +:+ (b +:+ c).
Proof.
  induction a as [|x a IH]; [done|]. rewrite !str_app_cons. f_equal. exact IH.
Qed.

Lemma str_app_length (a b : string) :
  String.length (a +:+ b) = (String.length a + String.length b)%nat.
Proof.
  induction a as [|x a IH]; [done|]. rewrite str_app_cons. simpl. f_equal. exact IH.
Qed.

Lemma str_app_inv_head (a x y : string) : a +:+ x = a +:+ y -> x = y.
Proof.
  induction a as [|c a IH]; [done|]. rewrite !str_app_cons. intros [= H]. auto.
Qed.

Lemma str_app_inv_tail (x y c : string) : x +:+ c = y +:+ c -> x = y.
Proof.
  revert y. induction x as [|a x IH]; intros [|b y] H.
  - done.
  - apply (f_equal String.length) in H. rewrite !str_app_length in H.
    simpl in H. lia.
  - apply (f_equal String.length) in H. rewrite !str_app_length in H.
    simpl in H. lia.
  - rewrite !str_app_cons in H. injection H as -> H. f_equal. by apply IH.
Qed.

(** Two texts without slash, each followed by a slash: the first slash
    tells where each ends. *)
Lemma str_app_slash_inv (a b x y : string) :
  has_slash a = false -> has_slash b = false ->
  a +:+ String "/" x = b +:+ String "/" y -> a = b /\ x = y.
Proof.
  revert b. induction a as [|c a IH]; intros [|d b]; rewrite ?str_app_cons; simpl.
  - intros _ _ [= ->]. done.
  - intros _ [Hd _]%orb_false_iff [= <- _]. done.
  - intros [Hc _]%orb_false_iff _ [= -> _]. done.
  - intros [_ Ha]%orb_false_iff [_ Hb]%orb_false_iff [= -> H].
    destruct (IH b Ha Hb H) as [-> ->]. done.
Qed.

Lemma ends_with_slash_has_slash (s : string) :
  Py.ends_with_slash s = true -> has_slash s = true.
Proof.
  induction s as [|c s IH]; simpl; [done|].
  destruct s as [|d s]; [intros ->; done|].
  intros H. rewrite (IH H). apply orb_true_r.
Qed.

Lemma ends_with_slash_app (a b : string) :
  b <> "" -> Py.ends_with_slash (a +:+ b) = Py.ends_with_slash b.
Proof.
  intros Hb. induction a as [|c a IH]; [done|].
  rewrite str_app_cons. simpl. rewrite IH.
  destruct (a +:+ b) eqn:Hab; [|done]. by destruct a, b.
Qed.

(** The decimal text of an integer. *)
Lemma string_of_uint_digits (d : Decimal.uint) :
  all_digits (NilEmpty.string_of_uint d) = true.
Proof. induction d; simpl; auto. Qed.

Lemma all_digits_no_slash (s : string) : all_digits s = true -> has_slash s = false.
Proof.
  induction s as [|c s IH]; simpl; [done|].
  intros [Hc Hs]%andb_true_iff. rewrite (IH Hs), orb_false_r.
  destruct (Ascii.eqb_spec c "/") as [->|]; [done|done].
Qed.

Lemma str_digits (n : Z) : (0 <= n)%Z -> all_digits (Py.str n) = true /\ Py.str n <> "".
Proof.
  intros Hn. unfold Py.str. destruct n as [|p|p]; [done| |lia].
  simpl. unfold NilZero.string_of_uint.
  pose proof (string_of_uint_digits (Pos.to_uint p)) as Hd.
  pose proof (Unsigned.to_uint_nonnil p) as Hnil.
  destruct (Pos.to_uint p) eqn:Hp; try done; split; try exact Hd; done.
Qed.

Lemma str_no_slash (n : Z) : has_slash (Py.str n) = false /\ Py.str n <> "".
Proof.
  unfold Py.str. destruct n as [|p|p]; [done| |]; simpl;
    unfold NilZero.string_of_uint;
    pose proof (string_of_uint_digits (Pos.to_uint p)) as Hd;
    pose proof (Unsigned.to_uint_nonnil p) as Hnil;
    apply all_digits_no_slash in Hd;
    destruct (Pos.to_uint p) eqn:Hp; try done.
Qed.

(** [str] gives different texts for different integers. *)
Lemma str_inj (a b : Z) : Py.str a = Py.str b -> a = b.
Proof.
  unfold Py.str. intros H. apply DecimalZ.to_int_inj.
  assert (Hnorm : forall n, Z.to_int n <> Decimal.Pos Decimal.Nil
                            /\ Z.to_int n <> Decimal.Neg Decimal.Nil).
  { intros [|p|p]; simpl; split; try done; intros [= Hp];
      by apply (Unsigned.to_uint_nonnil p). }
  assert (Some (Z.to_int a) = Some (Z.to_int b)) as [= ->]; [|done].
  rewrite <- (NilZero.isi (Z.to_int a)), <- (NilZero.isi (Z.to_int b));
    try apply Hnorm. by rewrite H.
Qed.

Lemma path_join_child (root child : string) :
  root <> "" -> Py.ends_with_slash root = false ->
  Py.starts_with_slash child = false ->
  path_join root child = root +:+ "/" +:+ child.
Proof.
  intros Hne Hend Hstart. unfold path_join. rewrite Hstart, Hend.
  by destruct root.
Qed.

Lemma str_no_ends_with_slash (n : Z) :
  Py.starts_with_slash (Py.str n) = false /\ Py.ends_with_slash (Py.str n) = false.
Proof.
  destruct (str_no_slash n) as [Hns Hne]. split.
  - destruct (Py.str n) as [|c s]; [done|]. simpl in *.
    by apply orb_false_iff in Hns as [-> _].
  - destruct (Py.ends_with_slash (Py.str n)) eqn:He; [|done].
    apply ends_with_slash_has_slash in He. congruence.
Qed.

(** The scan root: the projects directory, a slash unless the directory
    is empty or ends with one, the project id, a slash and the extraction
    folder name. *)
Lemma scan_path_shape (PROJECTS_SRC_PATH EXTRACT_FOLDER_NAME : string) (pid : Z) :
  Py.starts_with_slash EXTRACT_FOLDER_NAME = false ->
  exists slash,
    (slash = "" \/ slash = "/")
    /\ path_join (path_join PROJECTS_SRC_PATH (Py.str pid)) EXTRACT_FOLDER_NAME
       = PROJECTS_SRC_PATH +:+ slash +:+ Py.str pid +:+ "/" +:+ EXTRACT_FOLDER_NAME.
Proof.
  intros HE. destruct (str_no_ends_with_slash pid) as [Hstart Hend].
  destruct (str_no_slash pid) as [_ Hne].
  assert (Hjoin : forall root,
            path_join (root +:+ Py.str pid) EXTRACT_FOLDER_NAME
            = root +:+ Py.str pid +:+ "/" +:+ EXTRACT_FOLDER_NAME).
  { intros root. rewrite path_join_child; [by rewrite str_app_assoc| |by rewrite ends_with_slash_app|done].
    by destruct root, (Py.str pid). }
  unfold path_join at 2. rewrite Hstart.
  destruct (negb (Py.truthy PROJECTS_SRC_PATH) || Py.ends_with_slash PROJECTS_SRC_PATH).
  - exists "". split; [by left|]. apply (Hjoin PROJECTS_SRC_PATH).
  - exists "/". split; [by right|].
    rewrite <- (str_app_assoc PROJECTS_SRC_PATH "/" (Py.str pid)).
    rewrite (Hjoin (PROJECTS_SRC_PATH +:+ "/")). by rewrite !str_app_assoc.
Qed.

(** The same with the slash spelled out: [os.path.join] puts one after the
    projects directory unless that is empty or ends with one. *)
Lemma project_root_shape (PROJECTS_SRC_PATH : string) (pid : Z) :
  path_join PROJECTS_SRC_PATH (Py.str pid)
  = PROJECTS_SRC_PATH
      +:+ (if negb (Py.truthy PROJECTS_SRC_PATH) || Py.ends_with_slash PROJECTS_SRC_PATH
           then "" else "/")
      +:+ Py.str pid
  /\ path_join PROJECTS_SRC_PATH (Py.str pid) <> ""
  /\ Py.ends_with_slash (path_join PROJECTS_SRC_PATH (Py.str pid)) = false.
Proof.
  destruct (str_no_ends_with_slash pid) as [Hstart Hend].
  destruct (str_no_slash pid) as [_ Hne].
  unfold path_join. rewrite Hstart.
  destruct (negb (Py.truthy PROJECTS_SRC_PATH) || Py.ends_with_slash PROJECTS_SRC_PATH).
  - split; [reflexivity|]. split; [by destruct PROJECTS_SRC_PATH, (Py.str pid)|].
    by rewrite ends_with_slash_app.
  - split; [reflexivity|]. split; [by destruct PROJECTS_SRC_PATH|].
    by rewrite <- str_app_assoc, ends_with_slash_app.
Qed.

Lemma project_child_shape (PROJECTS_SRC_PATH child : string) (pid : Z) :
  Py.starts_with_slash child = false ->
  path_join (path_join PROJECTS_SRC_PATH (Py.str pid)) child
  = PROJECTS_SRC_PATH
      +:+ (if negb (Py.truthy PROJECTS_SRC_PATH) || Py.ends_with_slash PROJECTS_SRC_PATH
           then "" else "/")
      +:+ Py.str pid +:+ "/" +:+ child.
Proof.
  intros Hchild.
  destruct (project_root_shape PROJECTS_SRC_PATH pid) as (Hshape & Hne & Hend).
  rewrite path_join_child by done. rewrite Hshape. by rewrite !str_app_assoc.
Qed.

(** ** The path strip of [load_occurence] *)

Module ReFacts.
Import Re.






(** Without any occurrence, substitution changes nothing. *)
Lemma sub_no_match (r : regex) (s : string) :
  search r s = false -> sub r s = s.
Proof.
  unfold sub. induction s as [|c rest IH]; simpl; [done|].
  destruct (match_here r (String c rest)); [done|].
  intros H. by rewrite IH.
Qed.


End ReFacts.


(** The intended use: a reported path under the scan root comes out
    relative. *)
Example strip_scan_root :
  strip "data/projects/" "extract" "data/projects/12/extract/src/app/views.py"
    = "src/app/views.py".
Proof. reflexivity. Qed.

(** The class of the pattern holds the slash only: a path written with
    backslashes is left as it is. *)
Example strip_backslash_path :
  strip "data/projects/" "extract" "data/projects\7\extract\a.py"
    = "data/projects\7\extract\a.py".
Proof. reflexivity. Qed.

Example strip_relative_path :
  strip "data/projects/" "extract" "src/app/views.py" = "src/app/views.py".
Proof. reflexivity. Qed.



(** ** [load_occurence] *)

(** C6, counterexample. A record that ends before it starts gives a position
    that ends before it starts. *)
Lemma load_occurence_keeps_backwards_lines :
  let o := load_occurence "data/projects/" "extract" backwards_result in
  line_start (position o) = 5 /\ line_end (position o) = 3
  /\ ~ (line_end (position o) >= line_start (position o)).
Proof. repeat split. vm_compute. intros H. by apply H. Qed.

(** C6, amended. The occurrence carries the record's start and end lines
    as they are, so its end line is at least its start line exactly when
    that holds of the record. *)
Theorem load_occurence_lines (PROJECTS_SRC_PATH EXTRACT_FOLDER_NAME : string)
    (r : SemgrepResult) :
  let o := load_occurence PROJECTS_SRC_PATH EXTRACT_FOLDER_NAME r in
  line_start (position o) = loc_line (start_ r)
  /\ line_end (position o) = loc_line (end_ r)
  /\ (line_end (position o) >= line_start (position o)
      <-> loc_line (end_ r) >= loc_line (start_ r)).
Proof. simpl. repeat split; done. Qed.

(** ** [load_scan_results] *)

Section NormalizerFacts.

Variables PROJECTS_SRC_PATH EXTRACT_FOLDER_NAME : string.
Variable generate_severity : option string -> string.

Local Abbreviation load_occurence :=
  (load_occurence PROJECTS_SRC_PATH EXTRACT_FOLDER_NAME).
Local Abbreviation load_vulnerability := (load_vulnerability generate_severity).
Local Abbreviation scan_step :=
  (scan_step PROJECTS_SRC_PATH EXTRACT_FOLDER_NAME generate_severity).
Local Abbreviation scan_loop :=
  (scan_loop PROJECTS_SRC_PATH EXTRACT_FOLDER_NAME generate_severity).
Local Abbreviation load_scan_results :=
  (load_scan_results PROJECTS_SRC_PATH EXTRACT_FOLDER_NAME generate_severity).

Local Abbreviation occurences_of :=
  (occurences_of PROJECTS_SRC_PATH EXTRACT_FOLDER_NAME).
Local Abbreviation loop_inv := (loop_inv PROJECTS_SRC_PATH EXTRACT_FOLDER_NAME).

Lemma load_vulnerability_fresh (t : string) (r : SemgrepResult) (v : Vulnerability) :
  load_vulnerability t r = Ok v -> title v = t /\ occurences v = [].
Proof.
  unfold Util.load_vulnerability.
  destruct (ex_metadata (extra r)) as [md|]; [|by intros [= <-]].
  destruct (md_cwe md) as [[c|[|c cs]]|], (md_owasp md) as [[o|[|o os]]|];
    simpl; try discriminate; by intros [= <-].
Qed.

Lemma filter_title_nil (t : string) (l : list Vulnerability) :
  List.filter (title_is t) l = [] <-> ~ In t (map title l).
Proof.
  induction l as [|v l IH]; simpl; [tauto|]. unfold title_is at 1.
  destruct (String.eqb_spec (title v) t) as [Heq|Hne].
  - split; [done|]. intros H. destruct H. by left.
  - rewrite IH. tauto.
Qed.

Lemma append_to_first_titles (t : string) (o : Occurence) (l : list Vulnerability) :
  map title (append_to_first t o l) = map title l.
Proof.
  induction l as [|v l IH]; simpl; [done|].
  destruct (String.eqb (title v) t); simpl; [done|]. by rewrite IH.
Qed.

(** With distinct titles, the one vulnerability titled [t] gains the
    occurrence and all others stay as they are. *)
Lemma append_to_first_In (t : string) (o : Occurence) (l : list Vulnerability)
    (v' : Vulnerability) :
  List.NoDup (map title l) -> In v' (append_to_first t o l) ->
  (In v' l /\ title v' <> t)
  \/ (exists v, In v l /\ title v = t /\ v' = add_occurence o v).
Proof.
  induction l as [|v l IH]; simpl; [done|].
  intros Hnd. apply List.NoDup_cons_iff in Hnd as [Hv Hnd].
  destruct (String.eqb_spec (title v) t) as [Heq|Hne]; simpl.
  - intros [<-|Hin].
    + right. exists v. auto.
    + left. split; [auto|]. intros Ht. apply Hv. rewrite Heq, <- Ht.
      by apply in_map.
  - intros [<-|Hin]; [left; auto|].
    destruct (IH Hnd Hin) as [[? ?]|(u & ? & ? & ?)]; [left; auto|].
    right. exists u. auto.
Qed.

Lemma occurences_of_snoc (t : string) (seen : list SemgrepResult) (c : SemgrepResult) :
  occurences_of t (seen ++ [c])
  = occurences_of t seen
      ++ (if String.eqb (logical_title c) t then [load_occurence c] else []).
Proof.
  unfold occurences_of. rewrite List.filter_app, map_app. simpl.
  by destruct (String.eqb (logical_title c) t).
Qed.

Lemma occurences_of_absent (t : string) (seen : list SemgrepResult) :
  ~ In t (map logical_title seen) -> occurences_of t seen = [].
Proof.
  unfold occurences_of. induction seen as [|r seen IH]; simpl; [done|].
  intros H. destruct (String.eqb_spec (logical_title r) t) as [Heq|Hne].
  - destruct H. by left.
  - apply IH. tauto.
Qed.

Lemma nodup_snoc (l : list string) (x : string) :
  List.NoDup (l ++ [x]) <-> List.NoDup l /\ ~ In x l.
Proof.
  split.
  - intros H. apply List.NoDup_remove in H. rewrite app_nil_r in H. tauto.
  - intros [H1 H2]. apply List.NoDup_Add with (a := x) (l := l); [|done].
    rewrite <- (app_nil_r l) at 1. apply Add_app.
Qed.

(** One turn of the loop keeps the invariant. *)
Lemma scan_step_inv (seen : list SemgrepResult) (st st' : ScanLoop)
    (c : SemgrepResult) :
  loop_inv seen st -> scan_step st c = Ok st' -> loop_inv (seen ++ [c]) st'.
Proof.
  intros [Hnd Ht Ho Hb]. unfold Util.scan_step.
  destruct (List.filter _ (vulns st)) as [|e es] eqn:Hf.
  - (* a new title *)
    apply filter_title_nil in Hf.
    destruct (load_vulnerability (logical_title c) c) as [n|e] eqn:Hn; [|done].
    apply load_vulnerability_fresh in Hn as [Hnt Hno].
    simpl. intros [= <-]. split; simpl.
    + rewrite map_app. simpl. apply nodup_snoc. by rewrite Hnt.
    + intros t. rewrite !map_app, !in_app_iff, Ht. simpl. rewrite Hnt. tauto.
    + intros v [Hv|[<-|[]]]%in_app_iff.
      * rewrite occurences_of_snoc, (Ho v Hv).
        destruct (String.eqb_spec (logical_title c) (title v)) as [Heq|Hne].
        -- destruct Hf. rewrite Heq. by apply in_map.
        -- by rewrite app_nil_r.
      * simpl. rewrite Hno, Hnt, occurences_of_snoc, String.eqb_refl.
        rewrite occurences_of_absent; [done|]. by rewrite <- Ht.
    + rewrite Hb, map_app. simpl. rewrite nodup_snoc, <- Ht. tauto.
  - (* a title met before *)
    assert (Hin : In (logical_title c) (map title (vulns st))).
    { destruct (in_dec string_dec (logical_title c) (map title (vulns st)))
        as [H|H]; [done|].
      apply filter_title_nil in H. congruence. }
    intros [= <-]. split; simpl.
    + by rewrite append_to_first_titles.
    + intros t. rewrite append_to_first_titles, map_app, in_app_iff, Ht.
      simpl. split; [tauto|]. intros [H|[<-|[]]]; [done|]. by apply Ht.
    + intros v' Hv'. apply append_to_first_In in Hv'; [|done].
      rewrite occurences_of_snoc.
      destruct Hv' as [[Hv Hne]|(v & Hv & Heq & ->)].
      * rewrite (Ho v' Hv).
        destruct (String.eqb_spec (logical_title c) (title v')); [congruence|].
        by rewrite app_nil_r.
      * simpl. rewrite (Ho v Hv), Heq, String.eqb_refl. done.
    + split; [|by eexists]. intros _. rewrite map_app. simpl. rewrite nodup_snoc.
      apply Ht in Hin. tauto.
Qed.

(** The whole loop, when no turn raises. *)
Lemma scan_loop_inv (results seen : list SemgrepResult) (st st' : ScanLoop) :
  loop_inv seen st -> scan_loop st results = (st', None) ->
  loop_inv (seen ++ results) st'.
Proof.
  revert seen st. induction results as [|c rest IH]; intros seen st Hinv; simpl.
  - intros [= <-]. by rewrite app_nil_r.
  - destruct (scan_step st c) as [st1|e] eqn:Hstep; [|done].
    intros Hloop. replace (seen ++ c :: rest) with ((seen ++ [c]) ++ rest)
      by (by rewrite <- app_assoc).
    eapply IH; [|done]. by eapply scan_step_inv.
Qed.

Lemma loop_inv_init : loop_inv [] {| vulns := []; assigned := None |}.
Proof.
  split; simpl; [constructor|tauto|done|].
  split; [by intros [? [=]]|]. intros H. destruct H. constructor.
Qed.

(** The local list is right: after a loop that did not raise, it holds one
    vulnerability per distinct title, each with the occurrences of its
    title in encounter order. *)
Lemma scan_loop_local_list (results : list SemgrepResult) (st : ScanLoop) :
  scan_loop {| vulns := []; assigned := None |} results = (st, None) ->
  List.NoDup (map title (vulns st))
  /\ (forall t, In t (map title (vulns st)) <-> In t (map logical_title results))
  /\ (forall v, In v (vulns st) -> occurences v = occurences_of (title v) results)
  /\ (is_Some (assigned st) <-> ~ List.NoDup (map logical_title results)).
Proof.
  intros H. apply (scan_loop_inv results [] _ _ loop_inv_init) in H.
  simpl in H. by destruct H.
Qed.

(** But the attribute is assigned only in the branch for a repeated
    title: when the titles of the records are pairwise distinct, the call
    leaves [analysis.vulnerabilities] as it found it. *)
Lemma load_scan_results_distinct_titles (old vs : list Vulnerability)
    (results : list SemgrepResult) :
  List.NoDup (map logical_title results) ->
  load_scan_results old (OutObject (Some results)) = (vs, None) ->
  vs = old.
Proof.
  intros Hnd. unfold Util.load_scan_results.
  destruct (scan_loop _ results) as [st exn] eqn:Hloop.
  intros [= <- ->]. apply scan_loop_local_list in Hloop as (_ & _ & _ & Hb).
  destruct (assigned st) as [l|]; [|done]. destruct Hb as [Hb _].
  destruct Hb; [by eexists|done].
Qed.

End NormalizerFacts.

(** Two records of one check id give one vulnerability with two
    occurrences, in order. *)
Example load_scan_results_same_title :
  exists v o1 o2,
    load_scan_results "data/projects/" "extract" sample_severity []
      (OutObject (Some [sqli_1; sqli_2])) = ([v], None)
    /\ title v = "sqli" /\ severity v = Some "high"
    /\ occurences v = [o1; o2]
    /\ file_path o1 = "app/db.py" /\ file_path o2 = "app/admin.py".
Proof. do 3 eexists. repeat split. Qed.

(** C1. On a fresh analysis, two records with two distinct titles
    ([sqli], [xss]) leave [analysis.vulnerabilities] empty, although the
    local list of the loop holds the two vulnerabilities. *)
Theorem load_scan_results_two_titles_lost :
  load_scan_results "data/projects/" "extract" sample_severity []
    (OutObject (Some [sqli_1; xss_1])) = ([], None)
  /\ map title
       (vulns (fst (scan_loop "data/projects/" "extract" sample_severity
                      {| vulns := []; assigned := None |} [sqli_1; xss_1])))
     = ["sqli"; "xss"].
Proof. split; reflexivity. Qed.

(** ** The orchestrator [async_scan] *)

Section PipelineFacts.

Variables PROJECTS_SRC_PATH EXTRACT_FOLDER_NAME : string.
Variables BOM_FILE CDXGEN DEPSCAN DEPSCAN_RESULT_FILE : string.
Variable generate_severity : option string -> string.
Variables count_occurences calculate_risk_level : Store -> Z.
Variable repr_str : string -> string.
Variable w : World.

Local Abbreviation async_scan :=
  (async_scan PROJECTS_SRC_PATH EXTRACT_FOLDER_NAME BOM_FILE CDXGEN DEPSCAN
     DEPSCAN_RESULT_FILE generate_severity count_occurences calculate_risk_level
     repr_str w).
Local Abbreviation try_block :=
  (try_block PROJECTS_SRC_PATH EXTRACT_FOLDER_NAME BOM_FILE CDXGEN DEPSCAN
     DEPSCAN_RESULT_FILE w).
Local Abbreviation sca_scan :=
  (sca_scan PROJECTS_SRC_PATH EXTRACT_FOLDER_NAME BOM_FILE CDXGEN DEPSCAN
     DEPSCAN_RESULT_FILE w).
Local Abbreviation options :=
  (generate_semgrep_options PROJECTS_SRC_PATH EXTRACT_FOLDER_NAME w).
Local Abbreviation load_scan_results :=
  (load_scan_results PROJECTS_SRC_PATH EXTRACT_FOLDER_NAME generate_severity).
Local Abbreviation finish := (finish count_occurences calculate_risk_level w).
Local Abbreviation repr := (repr repr_str).

(** The scanners read the project id, the rule packs and the ignore
    string only, none of which the first statements of the task touch. *)
Lemma try_block_start (s : Session) : try_block (start w s) = try_block s.
Proof. reflexivity. Qed.

(** The [try] block raises exactly when one of the three scanners does,
    the earlier ones having returned. *)
Lemma try_block_raise_cases (s : Session) (e : Exn) :
  let p := project (current s) in
  let '(files, rules_path, ignore) := options (current s) in
  try_block s = Raise e <->
    sca_scan p = Raise e
    \/ (exists r, sca_scan p = Ok r
                  /\ semgrep_scan w files rules_path ignore = Raise e)
    \/ (exists r o, sca_scan p = Ok r
                    /\ semgrep_scan w files rules_path ignore = Ok o
                    /\ application_inspector_scan w (project_id p) = Raise e).
Proof.
  simpl. unfold Util.try_block, scan_phase, Util.generate_semgrep_options.
  set (files := files_to_scan _ _ _ _ _).
  set (rp := project_rules_path _ _). set (ig := ignore_set _).
  destruct (sca_scan (project (current s))) as [r|e1]; simpl.
  2:{ split; [intros [= ->]; by left|].
      intros [[= ->]|[(? & [=] & _)|(? & ? & [=] & _)]]. done. }
  destruct (semgrep_scan w files rp ig) as [o|e2]; simpl.
  2:{ split; [intros [= ->]; right; left; eauto|].
      intros [[=]|[(? & _ & [= ->])|(? & ? & _ & [=] & _)]]. done. }
  destruct (application_inspector_scan w _) as [i|e3]; simpl.
  - split; [done|]. intros [[=]|[(? & _ & [=])|(? & ? & _ & _ & [=])]].
  - split; [intros [= ->]; right; right; eauto|].
    intros [[=]|[(? & _ & [=])|(? & ? & _ & _ & [= ->])]]. done.
Qed.

Lemma repr_nonempty (e : Exn) : repr e <> "".
Proof.
  unfold Util.repr. destruct (exc_class e); simpl; discriminate.
Qed.


(** The error path. *)
Lemma async_scan_error_path (s : Session) (e : Exn) :
  try_block (start w s) = Raise e ->
  async_scan s
  = Returned (finish (update (set_project (with_status STATUS_ERROR))
                        (update (set_project (with_error_message (repr e)))
                           (start w s)))).
Proof. intros H. unfold Util.async_scan. by rewrite H. Qed.

(** The success path, when the pattern-engine normalizer returns. *)
Lemma async_scan_success_path (s : Session) sca sem insp vs :
  try_block (start w s) = Ok (sca, sem, insp) ->
  load_scan_results (vulnerabilities (analysis (current s))) sem = (vs, None) ->
  async_scan s
  = Returned (finish
      (update (set_project (with_status STATUS_FINISHED))
        (save_result PROJECTS_SRC_PATH sem
          (update (fun st => set_match
                     (load_scan_app_inspector (app_inspector_match st) insp) st)
            (update (set_analysis (fun a =>
                       with_vulnerable_dependencies
                         (load_sca_scan_results (vulnerable_dependencies a) sca) a))
              (update (set_analysis (with_vulnerabilities vs)) (start w s))))))).
Proof.
  intros H Hl. unfold Util.async_scan. rewrite H. simpl.
  simpl in Hl. by rewrite Hl.
Qed.

(** The success path, when the pattern-engine normalizer raises: the
    exception leaves the task at that point. *)
Lemma async_scan_escape_path (s : Session) sca sem insp vs e :
  try_block (start w s) = Ok (sca, sem, insp) ->
  load_scan_results (vulnerabilities (analysis (current s))) sem = (vs, Some e) ->
  async_scan s
  = Escaped e (update (set_analysis (with_vulnerabilities vs)) (start w s)).
Proof.
  intros H Hl. unfold Util.async_scan. rewrite H. simpl.
  simpl in Hl. by rewrite Hl.
Qed.

(** C2, amended. When a scanner raises, the run returns with the status
    ERROR and the [repr] of the exception, which is not empty, as error
    message, and with the three collections and the result files as they
    were. When the three scanners return and the pattern-engine
    normalizer returns as well, the run returns with the status FINISHED,
    the three collections are what the three normalizers give, and the raw
    result has been appended to the analysis's result file. *)
Theorem async_scan_try_outcome (s : Session) :
  (forall e, try_block s = Raise e ->
     exists s', async_scan s = Returned s'
       /\ status (project (current s')) = STATUS_ERROR
       /\ error_message (project (current s')) = Some (repr e)
       /\ repr e <> ""
       /\ vulnerabilities (analysis (current s'))
          = vulnerabilities (analysis (current s))
       /\ vulnerable_dependencies (analysis (current s'))
          = vulnerable_dependencies (analysis (current s))
       /\ app_inspector_match (current s') = app_inspector_match (current s)
       /\ artifacts s' = artifacts s)
  /\ (forall sca sem insp vs,
        try_block s = Ok (sca, sem, insp) ->
        load_scan_results (vulnerabilities (analysis (current s))) sem = (vs, None) ->
        exists s', async_scan s = Returned s'
          /\ status (project (current s')) = STATUS_FINISHED
          /\ vulnerabilities (analysis (current s')) = vs
          /\ vulnerable_dependencies (analysis (current s'))
             = load_sca_scan_results (vulnerable_dependencies (analysis (current s))) sca
          /\ app_inspector_match (current s')
             = load_scan_app_inspector (app_inspector_match (current s)) insp
          /\ artifacts s' !! result_filename PROJECTS_SRC_PATH (current s)
             = Some (default [] (artifacts s !! result_filename PROJECTS_SRC_PATH (current s))
                       ++ [sem])).
Proof.
  split.
  - intros e H. eexists. split; [by apply async_scan_error_path|].
    repeat split. apply repr_nonempty.
  - intros sca sem insp vs H Hl. eexists.
    split; [by eapply async_scan_success_path|].
    repeat split. simpl. apply lookup_insert_eq.
Qed.


(** C4, amended. Both tools having been started: an empty result file
    makes [sca_scan] return the empty list, and the run, if the other two
    scanners and the pattern-engine normalizer return, ends FINISHED with
    the vulnerable dependencies as they were; a missing result file makes
    [sca_scan] raise FileNotFoundError, and the run ends in ERROR with
    that error as message. *)
Theorem sca_scan_result_file (s : Session) :
  (forall args, subprocess_run w args = None) ->
  let p := project (current s) in
  let a := analysis (current s) in
  let result_file :=
    path_join (path_join PROJECTS_SRC_PATH (Py.str (project_id p)))
              DEPSCAN_RESULT_FILE in
  (readable w !! result_file = Some [] ->
     sca_scan p = Ok []
     /\ forall sem insp vs,
          semgrep_scan w (files_to_scan PROJECTS_SRC_PATH EXTRACT_FOLDER_NAME w p a)
            (project_rules_path PROJECTS_SRC_PATH p) (ignore_set a) = Ok sem ->
          application_inspector_scan w (project_id p) = Ok insp ->
          load_scan_results (vulnerabilities a) sem = (vs, None) ->
          exists s', async_scan s = Returned s'
            /\ status (project (current s')) = STATUS_FINISHED
            /\ vulnerable_dependencies (analysis (current s'))
               = vulnerable_dependencies a)
  /\ (readable w !! result_file = None ->
        sca_scan p = Raise FileNotFoundError
        /\ exists s', async_scan s = Returned s'
             /\ status (project (current s')) = STATUS_ERROR
             /\ error_message (project (current s'))
                = Some (repr FileNotFoundError)
             /\ vulnerable_dependencies (analysis (current s'))
                = vulnerable_dependencies a).
Proof.
  intros Hrun p a result_file.
  assert (Hsca : forall lines, readable w !! result_file = lines ->
            sca_scan p = match lines with
                         | Some l => loads_all w l
                         | None => Raise FileNotFoundError
                         end).
  { intros lines Hl. unfold Util.sca_scan, run. rewrite !Hrun. simpl.
    unfold open_lines. fold p. fold result_file. rewrite Hl.
    by destruct lines. }
  assert (Htry : forall r, sca_scan p = r ->
            try_block s
            = (sca_result <- r ;;
               semgrep_result <-
                 semgrep_scan w
                   (files_to_scan PROJECTS_SRC_PATH EXTRACT_FOLDER_NAME w p a)
                   (project_rules_path PROJECTS_SRC_PATH p) (ignore_set a) ;;
               app_inspector_result <- application_inspector_scan w (project_id p) ;;
               Ok (sca_result, semgrep_result, app_inspector_result))).
  { by intros r <-. }
  split; intros Hfile; apply Hsca in Hfile; simpl in Hfile; (split; [done|]).
  - intros sem insp vs Hsem Hinsp Hl.
    eexists. split.
    + eapply async_scan_success_path; [|exact Hl].
      rewrite try_block_start, (Htry _ Hfile). simpl. rewrite Hsem. simpl.
      by rewrite Hinsp.
    + by repeat split.
  - eexists. split.
    + apply async_scan_error_path.
      by rewrite try_block_start, (Htry _ Hfile).
    + by repeat split.
Qed.

End PipelineFacts.

(** *** Runs on sample data *)

Example run_good_world :
  let r := sample_async_scan good_world sample_session in
  escaped r = None
  /\ status (project (current (session_of r))) = STATUS_FINISHED
  /\ map title (vulnerabilities (analysis (current (session_of r)))) = ["sqli"]
  /\ occurences_count (project (current (session_of r))) = 2
  /\ finished_on (analysis (current (session_of r))) = Some 1060
  /\ task_id (analysis (current (session_of r))) = Some "".
Proof. vm_compute. repeat split. Qed.

(** C2, counterexample. The three scanners return, but the second finding
    comes from a rule whose metadata holds an empty CWE list: reading its
    first entry raises IndexError inside [load_vulnerability], the
    exception leaves the task, and the status stays ANALYZING. *)
Lemma async_scan_not_finished_after_scanners_succeed :
  let r := sample_async_scan empty_cwe_world sample_session in
  sample_try_block empty_cwe_world sample_session
    = Ok ([], empty_cwe_output, InspEmpty)
  /\ escaped r = Some IndexError
  /\ status (project (current (session_of r))) = STATUS_ANALYZING
  /\ status (project (current (session_of r))) <> STATUS_FINISHED.
Proof. vm_compute. repeat split. discriminate. Qed.

(** Witness for C2: the success path on [good_world]. *)
Lemma async_scan_try_outcome_witness :
  exists s',
    sample_async_scan good_world sample_session = Returned s'
    /\ status (project (current s')) = STATUS_FINISHED.
Proof.
  destruct (async_scan_try_outcome "data/projects/" "extract" "bom.json" "cdxgen"
              "depscan" "depscan-bom.json" sample_severity sample_count sample_risk
              sample_repr_str good_world sample_session) as [_ Hok].
  destruct (Hok [] good_output InspEmpty
              (fst (sample_load_scan_results [] good_output)))
    as (s' & Hrun & Hstatus & _).
  - vm_compute. reflexivity.
  - vm_compute. reflexivity.
  - exists s'. split; assumption.
Defined.



(** C4, counterexample. With the result file missing, [sca_scan] raises
    instead of returning no record, and the run ends in ERROR. *)
Lemma sca_scan_missing_file_raises :
  let r := sample_async_scan missing_file_world sample_session in
  sample_sca_scan missing_file_world sample_project = Raise FileNotFoundError
  /\ sample_sca_scan missing_file_world sample_project <> Ok []
  /\ escaped r = None
  /\ status (project (current (session_of r))) = STATUS_ERROR
  /\ error_message (project (current (session_of r)))
     = Some "FileNotFoundError(2, 'No such file or directory')".
Proof. vm_compute. repeat split. discriminate. Qed.

(** Witness for C4: the empty result file of [good_world]. *)
Lemma sca_scan_result_file_witness :
  (forall args, subprocess_run good_world args = None)
  /\ readable good_world !! "data/projects/7/depscan-bom.json" = Some []
  /\ sample_sca_scan good_world sample_project = Ok [].
Proof.
  assert (Hrun : forall args, subprocess_run good_world args = None)
    by (intros; reflexivity).
  assert (Hfile : readable good_world !! "data/projects/7/depscan-bom.json" = Some [])
    by (vm_compute; reflexivity).
  split; [exact Hrun|]. split; [exact Hfile|].
  destruct (sca_scan_result_file "data/projects/" "extract" "bom.json" "cdxgen"
              "depscan" "depscan-bom.json" sample_severity sample_count sample_risk
              sample_repr_str good_world sample_session Hrun) as [Hempty _].
  exact (proj1 (Hempty Hfile)).
Defined.

(** ** [semgrep_scan] *)

Section SemgrepScanFacts.

Variable w : World.
Variables (files : list string) (rules_path : string) (ignore : gset string).

(** With a structured error on record whose first has a [long_msg], the
    engine's error is replaced by an [Exception] that carries that
    message. *)
Lemma semgrep_scan_reraises (err : Exn) (e0 : StructuredError)
    (rest : list StructuredError) (msg : option string) :
  semgrep_main w files (cpu_count w) [rules_path] ignore
    = EngineSemgrepError err (e0 :: rest) ->
  long_msg e0 = Some msg ->
  semgrep_scan w files rules_path ignore
    = Raise (mkExn "Exception" [AStr "SemgrepError"; arg_of_option msg]).
Proof.
  intros H Hmsg. unfold semgrep_scan, get_long_msg. rewrite H. simpl.
  by rewrite Hmsg.
Qed.

(** With none on record, indexing the empty list raises. *)
Lemma semgrep_scan_no_structured_error (err : Exn) :
  semgrep_main w files (cpu_count w) [rules_path] ignore
    = EngineSemgrepError err [] ->
  semgrep_scan w files rules_path ignore = Raise IndexError.
Proof. intros H. unfold semgrep_scan. by rewrite H. Qed.

(** Either way the adapter raises, and what it raises comes from the
    [except] branch (the [Exception] it builds, or the failure of [[0]]
    or of [.long_msg]): the engine's exception itself does not come out. *)
Lemma semgrep_scan_hides_engine_error (err : Exn) (errs : list StructuredError) :
  semgrep_main w files (cpu_count w) [rules_path] ignore
    = EngineSemgrepError err errs ->
  exists e, semgrep_scan w files rules_path ignore = Raise e
            /\ (exc_class e = "Exception" \/ exc_class e = "IndexError"
                \/ exc_class e = "AttributeError").
Proof.
  intros H. unfold semgrep_scan, get_long_msg. rewrite H.
  destruct errs as [|e0 rest]; simpl; [eexists; split; eauto|].
  destruct (long_msg e0); simpl; eexists; split; eauto.
Qed.

(** What the engine returns is handed on as it is; other exceptions pass. *)
Lemma semgrep_scan_returns (output : SemgrepOutput) :
  semgrep_main w files (cpu_count w) [rules_path] ignore = EngineReturns output ->
  semgrep_scan w files rules_path ignore = Ok output.
Proof. intros H. unfold semgrep_scan. by rewrite H. Qed.

End SemgrepScanFacts.

Example semgrep_scan_first_structured_error :
  semgrep_scan invalid_rule_world ["data/projects/7/extract/app/db.py"]
    "data/projects/7/rules" ∅
  = Raise (mkExn "Exception" [AStr "SemgrepError";
                              AStr "Invalid rule schema: sqli.yaml"]).
Proof. reflexivity. Qed.

(** C9. The engine raises a SemgrepError while the output handler holds no
    structured error: the adapter raises IndexError, not the [Exception]
    that carries an engine message, and the run reports that IndexError. *)
Theorem semgrep_scan_no_config_index_error :
  let r := sample_async_scan no_config_world sample_session in
  semgrep_scan no_config_world ["data/projects/7/extract/app/db.py"]
    "data/projects/7/rules" ∅ = Raise IndexError
  /\ exc_class IndexError <> "Exception"
  /\ status (project (current (session_of r))) = STATUS_ERROR
  /\ error_message (project (current (session_of r)))
     = Some "IndexError('list index out of range')".
Proof. vm_compute. repeat split. discriminate. Qed.

(** ** [generate_semgrep_options] *)

(** [split] is the inverse of [join]: the pieces, joined by the separator,
    give the string back, and no piece holds the separator. *)
Lemma split_nonempty (sep : ascii) (s : string) : Py.split sep s <> [].
Proof.
  destruct s as [|c s]; simpl; [done|].
  destruct (Ascii.eqb c sep); [done|]. by destruct (Py.split sep s).
Qed.

Lemma join_split (sep : ascii) (s : string) :
  Py.join (String sep EmptyString) (Py.split sep s) = s.
Proof.
  induction s as [|c s IH]; simpl; [done|].
  destruct (Ascii.eqb_spec c sep) as [->|Hne].
  - pose proof (split_nonempty sep s) as Hs.
    destruct (Py.split sep s) as [|p ps]; [done|].
    simpl in *. by rewrite IH.
  - pose proof (split_nonempty sep s) as Hs.
    destruct (Py.split sep s) as [|p ps]; [done|].
    destruct ps as [|q qs]; simpl in *; by rewrite <- IH.
Qed.

Lemma split_pieces (sep : ascii) (s : string) :
  List.Forall (fun piece => Py.has_char sep piece = false) (Py.split sep s).
Proof.
  induction s as [|c s IH]; simpl; [by repeat constructor|].
  destruct (Ascii.eqb c sep) eqn:Hc; [by constructor|].
  destruct (Py.split sep s) as [|p ps]; [by repeat constructor; simpl; rewrite Hc|].
  inversion IH; subst. constructor; [|done]. simpl. by rewrite Hc.
Qed.

Lemma filter_None_In (x : string) (l : list string) :
  In x (Py.filter_None l) <-> In x l /\ x <> "".
Proof.
  unfold Py.filter_None. rewrite List.filter_In.
  destruct x; simpl; split; intros [? ?]; split; done.
Qed.

Section OptionsFacts.

Variables PROJECTS_SRC_PATH EXTRACT_FOLDER_NAME : string.
Variable w : World.

Local Abbreviation generate_semgrep_options :=
  (generate_semgrep_options PROJECTS_SRC_PATH EXTRACT_FOLDER_NAME w).
Local Abbreviation ext_pattern := (ext_pattern PROJECTS_SRC_PATH EXTRACT_FOLDER_NAME).

(** The pattern handed to [glob]: the scan path, [**] and [*<extension>]. *)
Lemma ext_pattern_shape (p : Project) (c_ext : string) :
  EXTRACT_FOLDER_NAME <> "" ->
  Py.starts_with_slash EXTRACT_FOLDER_NAME = false ->
  Py.ends_with_slash EXTRACT_FOLDER_NAME = false ->
  ext_pattern p c_ext
  = PROJECTS_SRC_PATH
      +:+ (if negb (Py.truthy PROJECTS_SRC_PATH) || Py.ends_with_slash PROJECTS_SRC_PATH
           then "" else "/")
      +:+ Py.str (project_id p) +:+ "/" +:+ EXTRACT_FOLDER_NAME +:+ "/**/*" +:+ c_ext.
Proof.
  intros HEne HEs HEe. unfold Util.ext_pattern, scan_path.
  rewrite project_child_shape by done.
  set (root := PROJECTS_SRC_PATH +:+ _ +:+ Py.str (project_id p) +:+ "/"
                 +:+ EXTRACT_FOLDER_NAME).
  assert (Hroot : root <> "").
  { subst root. destruct (str_no_slash (project_id p)) as [_ Hne].
    destruct PROJECTS_SRC_PATH; [|done]. simpl.
    change ("" +:+ ?x) with x. by destruct (Py.str (project_id p)). }
  assert (Hend : Py.ends_with_slash root = false).
  { subst root. rewrite <- !str_app_assoc. by rewrite ends_with_slash_app. }
  rewrite (path_join_child root "**") by done.
  rewrite path_join_child; [|by destruct root|by rewrite ends_with_slash_app|done].
  subst root. by rewrite !str_app_assoc.
Qed.

(** C8. With an extraction folder name that is a plain folder name, the
    file list collects, for every selected rule pack, every language of
    the pack and every non-empty entry of the language's comma-separated
    extensions, what the recursive glob gives for
    [<scan root>/**/*<extension>], the scan root being the projects
    directory, the project id and the extraction folder name; the rules
    path is [<projects directory>/<project id>/rules]; the ignore set holds
    the non-empty pieces of the comma-separated ignore string; when the
    glob finds nothing for any of these extensions the file list is empty.
    When the glob gives only paths that match its pattern, every file of
    the list lies under the scan root and ends with a declared, non-empty
    extension. The function only reads the store: its sole results are the
    three values. *)
Theorem generate_semgrep_options_spec (st : Store) :
  EXTRACT_FOLDER_NAME <> "" ->
  Py.starts_with_slash EXTRACT_FOLDER_NAME = false ->
  Py.ends_with_slash EXTRACT_FOLDER_NAME = false ->
  let p := project st in
  let a := analysis st in
  let project_root :=
    PROJECTS_SRC_PATH
      +:+ (if negb (Py.truthy PROJECTS_SRC_PATH) || Py.ends_with_slash PROJECTS_SRC_PATH
           then "" else "/")
      +:+ Py.str (project_id p) in
  let scan_root := project_root +:+ "/" +:+ EXTRACT_FOLDER_NAME in
  let declared c_ext :=
    exists c_rule_pack c_language,
      In c_rule_pack (rule_packs a)
      /\ In c_language (languages c_rule_pack)
      /\ In c_ext (Py.split "," (extensions c_language))
      /\ c_ext <> "" in
  exists files ignore,
    generate_semgrep_options st = (files, project_root +:+ "/rules", ignore)
    /\ (forall f, In f files <->
          exists c_ext,
            declared c_ext
            /\ In f (glob w (scan_root +:+ "/**/*" +:+ c_ext) true))
    /\ (forall x, x ∈ ignore <->
          In x (Py.split "," (ignore_filenames a)) /\ x <> "")
    /\ ((forall c_ext, declared c_ext ->
           glob w (scan_root +:+ "/**/*" +:+ c_ext) true = []) ->
        files = [])
    /\ ((forall c_ext f,
           In f (glob w (scan_root +:+ "/**/*" +:+ c_ext) true) ->
           exists stem, f = scan_root +:+ "/" +:+ stem +:+ c_ext) ->
        forall f, In f files ->
          exists c_ext stem,
            declared c_ext /\ f = scan_root +:+ "/" +:+ stem +:+ c_ext).
Proof.
  intros HEne HEs HEe p a project_root scan_root declared.
  assert (Hpat : forall c_ext,
            ext_pattern p c_ext = scan_root +:+ "/**/*" +:+ c_ext).
  { intros c_ext. rewrite ext_pattern_shape by done.
    subst scan_root project_root. by rewrite !str_app_assoc. }
  assert (Hrules : project_rules_path PROJECTS_SRC_PATH p = project_root +:+ "/rules").
  { unfold project_rules_path. rewrite project_child_shape by done.
    subst project_root. by rewrite !str_app_assoc. }
  do 2 eexists. split.
  { rewrite <- Hrules. reflexivity. }
  assert (Hfiles : forall f,
    In f (files_to_scan PROJECTS_SRC_PATH EXTRACT_FOLDER_NAME w p a) <->
      exists c_ext,
        declared c_ext /\ In f (glob w (scan_root +:+ "/**/*" +:+ c_ext) true)).
  { intros f. unfold files_to_scan, language_files. rewrite in_flat_map. split.
    - intros (rp & Hrp & (lang & Hlang & (ext & Hext & Hf)%in_flat_map)%in_flat_map).
      apply filter_None_In in Hext as [Hext Hne]. rewrite Hpat in Hf.
      exists ext. split; [|done]. exists rp, lang. auto.
    - intros (ext & (rp & lang & Hrp & Hlang & Hext & Hne) & Hf).
      exists rp. split; [done|]. apply in_flat_map. exists lang. split; [done|].
      apply in_flat_map. exists ext. rewrite Hpat. split; [|done].
      by apply filter_None_In. }
  split; [exact Hfiles|]. split; [|split].
  - intros x. unfold ignore_set. rewrite elem_of_list_to_set, list_elem_of_In.
    apply filter_None_In.
  - intros Hnone.
    destruct (files_to_scan _ _ _ _ _) as [|f fs] eqn:Hl; [done|].
    destruct (proj1 (Hfiles f)) as (ext & Hdecl & Hf); [by left|].
    by rewrite (Hnone ext Hdecl) in Hf.
  - intros Hglob f Hf. apply Hfiles in Hf as (ext & Hdecl & Hf).
    destruct (Hglob ext f Hf) as [stem Hstem]. by exists ext, stem.
Qed.

End OptionsFacts.

Example ext_pattern_sample :
  ext_pattern "data/projects/" "extract" sample_project ".py"
  = "data/projects/7/extract/**/*.py".
Proof. reflexivity. Qed.

(** Witness for C8: the sample store, whose project has one Python file. *)
Lemma generate_semgrep_options_spec_witness :
  exists files ignore,
    generate_semgrep_options "data/projects/" "extract" good_world sample_store
      = (files, "data/projects/7/rules", ignore)
    /\ (forall f, In f files ->
          exists c_ext stem,
            c_ext <> "" /\ f = "data/projects/7/extract/" +:+ stem +:+ c_ext).
Proof.
  assert (Hglob : forall c_ext f,
            In f (glob good_world ("data/projects/7/extract/**/*" +:+ c_ext) true) ->
            exists stem, f = "data/projects/7/extract/" +:+ stem +:+ c_ext).
  { intros c_ext f.
    change (glob good_world ?p true)
      with (if String.eqb p "data/projects/7/extract/**/*.py" && true
            then ["data/projects/7/extract/app/db.py"] else []).
    destruct (String.eqb_spec ("data/projects/7/extract/**/*" +:+ c_ext)
                "data/projects/7/extract/**/*.py") as [Heq|Hne]; simpl; [|done].
    intros [<-|[]].
    apply (str_app_inv_head "data/projects/7/extract/**/*" c_ext ".py") in Heq.
    subst c_ext. by exists "app/db". }
  destruct (generate_semgrep_options_spec "data/projects/" "extract" good_world
              sample_store) as (files & ignore & Hrun & _ & _ & _ & Hunder);
    [discriminate|reflexivity|reflexivity|].
  exists files, ignore. split; [exact Hrun|].
  intros f Hf. destruct (Hunder Hglob f Hf) as (c_ext & stem & Hdecl & Heq).
  exists c_ext, stem. split; [|exact Heq].
  by destruct Hdecl as (_ & _ & _ & _ & _ & Hne).
Defined.

Example generate_semgrep_options_sample :
  generate_semgrep_options "data/projects/" "extract" good_world sample_store
  = (["data/projects/7/extract/app/db.py"], "data/projects/7/rules",
     {[ "*.min.js"; "tests" ]}).
Proof. vm_compute. reflexivity. Qed.

(** ** [import_rules] *)

Section RuleStagerFacts.

Variable RULES_PATH : string.
Variable RULE_EXTENSIONS : list string.

Local Abbreviation import_rules := (import_rules RULES_PATH RULE_EXTENSIONS).
Local Abbreviation import_loop := (import_loop RULES_PATH RULE_EXTENSIONS).
Local Abbreviation import_rule := (import_rule RULES_PATH RULE_EXTENSIONS).
Local Abbreviation stage_entry := (stage_entry RULES_PATH).
Local Abbreviation staged_entries := (staged_entries RULES_PATH).
Local Abbreviation source c_rule := (path_join RULES_PATH (r_file_path c_rule)).

(** The stager never touches a regular file, however it ends. *)
Lemma import_loop_regular (rule_folder : string) (l : list Rule) (fs : FS) :
  regular (fst (import_loop rule_folder fs l)) = regular fs.
Proof.
  revert fs. induction l as [|r l IH]; intros fs; simpl; [done|].
  destruct (import_rule rule_folder fs r) as [fs'|e] eqn:Hr; [|done].
  rewrite IH. unfold Util.import_rule in Hr.
  destruct (next_iter RULE_EXTENSIONS) as [ext|]; [|done]. simpl in Hr.
  unfold copyfile in Hr.
  destruct (regular fs !! path_join RULES_PATH (r_file_path r)); [|done].
  destruct (folders fs !! rule_folder); [|done].
  destruct (has_slash _); [done|]. by injection Hr as <-.
Qed.

Lemma import_rules_regular (a : Analysis) (rule_folder : string) (fs : FS) :
  regular (fst (import_rules a rule_folder fs)) = regular fs.
Proof.
  unfold Util.import_rules.
  set (fs1 := if isdir rule_folder fs then rmtree rule_folder fs else fs).
  assert (H1 : regular fs1 = regular fs) by (subst fs1; by destruct (isdir _ _)).
  unfold mkdir. destruct (_ || _); [done|].
  by rewrite import_loop_regular.
Qed.

(** The loop, when every source is there and every name is a plain entry
    name: it runs to its end and adds the entries to the folder. *)
Lemma import_loop_stages (ext : string) (exts : list string)
    (rule_folder : string) (l : list Rule) (fs : FS) (entries : gmap string string) :
  RULE_EXTENSIONS = ext :: exts ->
  folders fs !! rule_folder = Some entries ->
  (forall r, In r l -> is_Some (regular fs !! source r)) ->
  (forall r, In r l -> has_slash (staged_name ext r) = false) ->
  import_loop rule_folder fs l
  = ({| regular := regular fs;
        folders := <[rule_folder := fold_left (stage_entry ext fs) l entries]>
                     (folders fs) |}, None).
Proof.
  intros Hext.
  assert (Hn : next_iter RULE_EXTENSIONS = Ok ext) by (by rewrite Hext).
  clear Hext. revert fs entries.
  induction l as [|r l IH]; intros fs entries Hdir Hsrc Hname; simpl.
  - rewrite insert_id by done. by destruct fs.
  - destruct (Hsrc r) as [content Hc]; [by left|].
    unfold Util.import_rule, copyfile. rewrite Hn. simpl.
    rewrite Hc, Hdir, (Hname r) by (by left). simpl.
    rewrite (IH _ (<[staged_name ext r := content]> entries)); simpl.
    + rewrite insert_insert_eq.
      replace (stage_entry ext fs entries r)
        with (<[staged_name ext r := content]> entries)
        by (unfold Util.stage_entry; by rewrite Hc).
      reflexivity.
    + apply lookup_insert_eq.
    + intros r' Hr'. apply Hsrc. by right.
    + intros r' Hr'. apply Hname. by right.
Qed.

Lemma stage_entry_dom (ext : string) (fs : FS) (l : list Rule)
    (m : gmap string string) (name : string) :
  (forall r, In r l -> is_Some (regular fs !! source r)) ->
  is_Some (fold_left (stage_entry ext fs) l m !! name)
  <-> is_Some (m !! name) \/ exists r, In r l /\ name = staged_name ext r.
Proof.
  revert m. induction l as [|r l IH]; intros m Hsrc; simpl.
  - split; [by left|]. by intros [?|(? & [] & _)].
  - rewrite IH by (intros; apply Hsrc; by right).
    destruct (Hsrc r) as [content Hc]; [by left|].
    unfold Util.stage_entry at 1. rewrite Hc.
    rewrite lookup_insert_is_Some. split.
    + intros [[<-|[_ H]]|(r' & Hr' & ->)]; eauto.
    + intros [H|(r' & [<-|Hr'] & ->)]; eauto.
      destruct (decide (staged_name ext r = name)); eauto.
Qed.

(** With pairwise distinct names, every rule adds an entry. *)
Lemma stage_entry_size (ext : string) (fs : FS) (l : list Rule)
    (m : gmap string string) :
  (forall r, In r l -> is_Some (regular fs !! source r)) ->
  List.NoDup (map (staged_name ext) l) ->
  (forall r, In r l -> m !! staged_name ext r = None) ->
  size (fold_left (stage_entry ext fs) l m) = (size m + length l)%nat.
Proof.
  revert m. induction l as [|r l IH]; intros m Hsrc Hnd Hfresh; simpl; [lia|].
  simpl in Hnd. apply List.NoDup_cons_iff in Hnd as [Hr Hnd].
  destruct (Hsrc r) as [content Hc]; [by left|].
  unfold Util.stage_entry at 2. rewrite Hc.
  rewrite IH; [|intros; apply Hsrc; by right|done|].
  - rewrite map_size_insert_None by (apply Hfresh; by left). lia.
  - intros r' Hr'. rewrite lookup_insert_ne; [apply Hfresh; by right|].
    intros Heq. apply Hr. rewrite Heq. by apply in_map.
Qed.

Lemma nodup_map_inj (l : list Rule) (f : Rule -> string) (r r' : Rule) :
  List.NoDup (map f l) -> In r l -> In r' l -> f r = f r' -> r = r'.
Proof.
  induction l as [|x l IH]; simpl; [done|].
  intros Hnd%List.NoDup_cons_iff Hr Hr' Heq. destruct Hnd as [Hx Hnd].
  destruct Hr as [<-|Hr], Hr' as [<-|Hr']; [done| | |by apply IH].
  - destruct Hx. rewrite Heq. by apply in_map.
  - destruct Hx. rewrite <- Heq. by apply in_map.
Qed.

(** C7. Every rule source being there, every generated name being a plain
    entry name, no regular file standing at the destination, and [ext]
    being the first rule extension: [import_rules] runs to its end; the
    destination folder then holds exactly the entries named
    [<repository name>_<category>.<title><ext>] after the rules of the
    selected packs, whatever the folder held before; other folders and all
    regular files are as they were. Each entry holds the content of the
    source of a rule of that name, and when the generated names are
    pairwise distinct there are as many entries as rules, each rule
    having its own entry with the content of its own source. So a call
    that follows an earlier call for any analysis leaves the entries of
    its own analysis only. *)
Theorem import_rules_stages (ext : string) (exts : list string) (a : Analysis)
    (rule_folder : string) (fs : FS) :
  let selected := flat_map rules (rule_packs a) in
  let name c_rule :=
    r_repository_name c_rule +:+ "_" +:+ r_category c_rule +:+ "."
      +:+ r_title c_rule +:+ ext in
  let entries := staged_entries ext fs selected in
  RULE_EXTENSIONS = ext :: exts ->
  (forall r, In r selected -> is_Some (regular fs !! source r)) ->
  (forall r, In r selected -> has_slash (name r) = false) ->
  regular fs !! rule_folder = None ->
  (forall fs0, regular fs0 = regular fs ->
     exists fs',
       import_rules a rule_folder fs0 = (fs', None)
       /\ regular fs' = regular fs0
       /\ folders fs' !! rule_folder = Some entries
       /\ (forall other, other <> rule_folder ->
             folders fs' !! other = folders fs0 !! other))
  /\ (forall n,
        is_Some (entries !! n) <-> exists r, In r selected /\ n = name r)
  /\ (forall r, In r selected ->
        exists r', In r' selected
          /\ name r' = name r
          /\ entries !! name r = regular fs !! source r')
  /\ (List.NoDup (map name selected) ->
        size entries = length selected
        /\ forall r, In r selected -> entries !! name r = regular fs !! source r)
  /\ (forall a0,
        exists fs',
          import_rules a rule_folder (fst (import_rules a0 rule_folder fs))
            = (fs', None)
          /\ folders fs' !! rule_folder = Some entries).
Proof.
  intros selected name entries Hext Hsrc Hname Hfile.
  change name with (staged_name ext) in *. subst entries.
  assert (Hcall : forall fs0, regular fs0 = regular fs ->
     exists fs',
       import_rules a rule_folder fs0 = (fs', None)
       /\ regular fs' = regular fs0
       /\ folders fs' !! rule_folder = Some (staged_entries ext fs selected)
       /\ (forall other, other <> rule_folder ->
             folders fs' !! other = folders fs0 !! other)).
  { intros fs0 Hreg. unfold Util.import_rules.
    set (fs1 := if isdir rule_folder fs0 then rmtree rule_folder fs0 else fs0).
    assert (H1 : regular fs1 = regular fs0) by (subst fs1; by destruct (isdir _ _)).
    assert (H2 : folders fs1 !! rule_folder = None).
    { subst fs1. unfold isdir. case_bool_decide as Hd; simpl.
      - apply lookup_delete_eq.
      - by apply eq_None_not_Some. }
    assert (H3 : forall other, other <> rule_folder ->
              folders fs1 !! other = folders fs0 !! other).
    { intros other Hne. subst fs1. destruct (isdir _ _); simpl; [|done].
      by apply lookup_delete_ne. }
    unfold mkdir. rewrite H1, Hreg, Hfile, H2.
    rewrite !bool_decide_eq_false_2 by (by intros [? [=]]). simpl.
    erewrite (import_loop_stages ext exts); simpl; [|done|apply lookup_insert_eq|..].
    2,3: intros r Hr; simpl; rewrite ?Hreg; auto.
    eexists. split; [reflexivity|]. simpl. split; [done|]. split.
    - by rewrite lookup_insert_eq.
    - intros other Hne. rewrite !lookup_insert_ne by done. by apply H3. }
  assert (Hlast : forall r, In r selected ->
            exists r', In r' selected
              /\ staged_name ext r' = staged_name ext r
              /\ staged_entries ext fs selected !! staged_name ext r
                 = regular fs !! source r').
  2:{ split; [exact Hcall|]. split; [|split; [exact Hlast|split]].
      - intros n. unfold Util.staged_entries. rewrite stage_entry_dom by done.
        rewrite lookup_empty. split; [intros [[? [=]]|?]; done|by right].
      - intros Hnd. split.
        + unfold Util.staged_entries. rewrite stage_entry_size; done.
        + intros r Hr. destruct (Hlast r Hr) as (r' & Hr' & Heq & ->).
          by rewrite (nodup_map_inj selected (staged_name ext) r' r Hnd Hr' Hr Heq).
      - intros a0. destruct (Hcall (fst (import_rules a0 rule_folder fs)))
          as (fs' & Hrun & _ & Hdir & _); [apply import_rules_regular|].
        eauto. }
  { intros r Hr. unfold Util.staged_entries.
    assert (Hgen : forall l m,
      (forall r0, In r0 l -> is_Some (regular fs !! source r0)) ->
      (In r l \/ exists r', In r' selected /\ staged_name ext r' = staged_name ext r
                   /\ m !! staged_name ext r = regular fs !! source r') ->
      (forall r0, In r0 l -> In r0 selected) ->
      exists r', In r' selected /\ staged_name ext r' = staged_name ext r
        /\ fold_left (stage_entry ext fs) l m !! staged_name ext r
           = regular fs !! source r').
    { induction l as [|x l IH]; intros m Hs Hm Hsub; simpl.
      - destruct Hm as [[]|Hm]. exact Hm.
      - destruct (Hs x) as [content Hc]; [by left|].
        apply IH; [intros; apply Hs; by right| |intros; apply Hsub; by right].
        unfold Util.stage_entry. rewrite Hc.
        destruct (decide (staged_name ext x = staged_name ext r)) as [Heq|Hne].
        + right. exists x. split; [apply Hsub; by left|]. split; [done|].
          by rewrite Heq, lookup_insert_eq.
        + destruct Hm as [[<-|Hin]|(r' & ? & ? & Hm)]; [done|by left|].
          right. exists r'. by rewrite lookup_insert_ne. }
    apply Hgen; auto. }
Qed.


End RuleStagerFacts.

(** Staging the two rules of [sample_pack] into a folder that holds a file
    of an earlier staging: the folder ends with the two rule files only. *)
Example import_rules_sample :
  let r := sample_import_rules sample_analysis sample_fs in
  snd r = None
  /\ listing sample_fs "data/projects/7/rules"
     = Some [("community_java.xxe.yaml", "rules: [xxe]")]
  /\ listing (fst r) "data/projects/7/rules"
     = Some [("community_python.sqli.yaml", "rules: [sqli]");
             ("community_python.xss.yaml", "rules: [xss]")].
Proof. vm_compute. repeat split. Qed.

(** Witness for C7: the sample rule store and project folder. *)
Lemma import_rules_stages_witness :
  exists fs' entries,
    sample_import_rules sample_analysis sample_fs = (fs', None)
    /\ regular fs' = regular sample_fs
    /\ folders fs' !! "data/projects/7/rules" = Some entries
    /\ size entries = 2%nat
    /\ entries !! "community_python.sqli.yaml" = Some "rules: [sqli]"
    /\ entries !! "community_python.xss.yaml" = Some "rules: [xss]".
Proof.
  destruct (import_rules_stages "data/rules/" [".yaml"; ".yml"] ".yaml" [".yml"]
              sample_analysis "data/projects/7/rules" sample_fs)
    as (Hcall & _ & _ & Hown & _).
  - reflexivity.
  - intros r [<-|[<-|[]]]; vm_compute; eexists; reflexivity.
  - intros r [<-|[<-|[]]]; vm_compute; reflexivity.
  - vm_compute. reflexivity.
  - destruct (Hcall sample_fs eq_refl) as (fs' & Hrun & Hreg & Hdir & _).
    destruct Hown as [Hsize Hrule].
    { simpl. repeat constructor; simpl; intros H;
        [destruct H as [H|H]; [discriminate|done]|done]. }
    eexists fs', _. split; [exact Hrun|]. split; [exact Hreg|].
    split; [exact Hdir|]. split; [exact Hsize|]. split.
    + exact (Hrule {| r_file_path := "community/python/sqli.yaml";
                      r_repository_name := "community";
                      r_category := "python"; r_title := "sqli" |}
               (or_introl eq_refl)).
    + exact (Hrule {| r_file_path := "community/python/xss.yaml";
                      r_repository_name := "community";
                      r_category := "python"; r_title := "xss" |}
               (or_intror (or_introl eq_refl))).
Defined.

(** ** [vulnerabilities_sorted_by_severity] *)

Section SortedBySeverityFacts.

Variables SEVERITY_HIGH SEVERITY_MEDIUM : string.

Local Abbreviation is_high := (is_high SEVERITY_HIGH).
Local Abbreviation is_medium := (is_medium SEVERITY_MEDIUM).
Local Abbreviation is_other := (is_other SEVERITY_HIGH SEVERITY_MEDIUM).
Local Abbreviation sort_step := (sort_step SEVERITY_HIGH SEVERITY_MEDIUM).

(** The loop, from any state: highs pile up in front in reverse, the
    mediums that are not high queue behind, the rest goes to the low list. *)
Lemma sort_loop_shape (l r low : list Vulnerability) :
  fold_left sort_step l (r, low) =
    (rev (List.filter is_high l) ++ r
       ++ List.filter (fun v => negb (is_high v) && is_medium v) l,
     low ++ List.filter is_other l).
Proof.
  revert r low. induction l as [|v l IH]; intros r low; simpl.
  - by rewrite !app_nil_r.
  - unfold Util.is_other. destruct (is_high v) eqn:Hh; simpl.
    + rewrite IH. by rewrite <- !app_assoc.
    + destruct (is_medium v) eqn:Hm; simpl; rewrite IH.
      * by rewrite <- !app_assoc.
      * by rewrite <- !app_assoc.
Qed.

Lemma high_not_medium (v : Vulnerability) :
  SEVERITY_HIGH <> SEVERITY_MEDIUM -> is_high v = true -> is_medium v = false.
Proof.
  unfold Util.is_high, Util.is_medium, severity_is.
  intros Hne. destruct (severity v) as [s|]; [|done].
  intros Hs%String.eqb_eq. subst s. by apply String.eqb_neq.
Qed.

Lemma three_way_split (l : list Vulnerability) :
  SEVERITY_HIGH <> SEVERITY_MEDIUM ->
  Permutation (List.filter is_high l ++ List.filter is_medium l ++ List.filter is_other l) l.
Proof.
  intros Hne. induction l as [|v l IH]; simpl; [done|].
  unfold Util.is_other.
  destruct (is_high v) eqn:Hh; simpl.
  - rewrite (high_not_medium v Hne Hh). by constructor.
  - destruct (is_medium v) eqn:Hm; simpl.
    + rewrite <- Permutation_middle. by constructor.
    + rewrite app_assoc, <- Permutation_middle, <- app_assoc. by constructor.
Qed.

(** C10. With distinct constants for the two levels, the result is the
    high-severity vulnerabilities in reverse encounter order, then the
    medium-severity ones in encounter order, then all the others in
    encounter order; it is a permutation of the input. *)
Theorem sorted_by_severity_layout (l : list Vulnerability) :
  SEVERITY_HIGH <> SEVERITY_MEDIUM ->
  exists highs mediums others,
    vulnerabilities_sorted_by_severity SEVERITY_HIGH SEVERITY_MEDIUM l
      = highs ++ mediums ++ others
    /\ highs = rev (List.filter is_high l)
    /\ mediums = List.filter is_medium l
    /\ others = List.filter is_other l
    /\ Forall (fun v => severity v = Some SEVERITY_HIGH) highs
    /\ Forall (fun v => severity v = Some SEVERITY_MEDIUM) mediums
    /\ Forall (fun v => severity v <> Some SEVERITY_HIGH
                        /\ severity v <> Some SEVERITY_MEDIUM) others
    /\ Permutation
         (vulnerabilities_sorted_by_severity SEVERITY_HIGH SEVERITY_MEDIUM l) l.
Proof.
  intros Hne.
  assert (Hshape : vulnerabilities_sorted_by_severity SEVERITY_HIGH SEVERITY_MEDIUM l
            = rev (List.filter is_high l) ++ List.filter is_medium l
                ++ List.filter is_other l).
  { unfold vulnerabilities_sorted_by_severity. rewrite sort_loop_shape. simpl.
    rewrite <- app_assoc. do 2 f_equal.
    apply List.filter_ext. intros v.
    destruct (is_high v) eqn:Hh; simpl; [|done].
    symmetry. by apply high_not_medium. }
  exists (rev (List.filter is_high l)), (List.filter is_medium l),
         (List.filter is_other l).
  repeat split; try done.
- apply List.Forall_forall. intros v Hv%in_rev%List.filter_In.
  destruct Hv as [_ Hv]. unfold Util.is_high, severity_is in Hv.
  destruct (severity v); [|done]. apply String.eqb_eq in Hv. by subst.
- apply List.Forall_forall. intros v [_ Hv]%List.filter_In.
  unfold Util.is_medium, severity_is in Hv.
  destruct (severity v); [|done]. apply String.eqb_eq in Hv. by subst.
- apply List.Forall_forall. intros v [_ Hv]%List.filter_In.
  unfold Util.is_other, Util.is_high, Util.is_medium, severity_is in Hv.
  split; intros Heq; rewrite Heq, String.eqb_refl in Hv; simpl in Hv;
    [done | by rewrite andb_false_r in Hv].
- rewrite Hshape.
  eapply Permutation_trans; [|exact (three_way_split l Hne)].
  apply Permutation_app_tail. symmetry. apply Permutation_rev.
Qed.

End SortedBySeverityFacts.

Example sorted_by_severity_sample :
  map title (vulnerabilities_sorted_by_severity "high" "medium" mixed_vulns)
  = ["d"; "b"; "c"; "f"; "a"; "e"].
Proof. reflexivity. Qed.

(** Witness for C10: the levels ["high"] and ["medium"] on [mixed_vulns]. *)
Lemma sorted_by_severity_layout_witness :
  "high" <> "medium"
  /\ Permutation (vulnerabilities_sorted_by_severity "high" "medium" mixed_vulns)
       mixed_vulns.
Proof.
  assert (Hne : "high" <> "medium") by discriminate.
  split; [exact Hne|].
  destruct (sorted_by_severity_layout "high" "medium" mixed_vulns Hne)
    as (highs & mediums & others & _ & _ & _ & _ & _ & _ & _ & Hperm).
  exact Hperm.
Defined.

(** * Further properties of [app/analysis/util.py] *)

(** ** [load_sca_scan_results] *)

Lemma sca_fold (rs : list DepscanRecord) (acc : list VulnerableDependency)
    (b : option (list VulnerableDependency)) :
  fold_left (fun st c_result =>
               let vuln_deps := fst st ++ [vulnerable_dependency c_result] in
               (vuln_deps, Some vuln_deps))
            rs (acc, b)
  = (acc ++ map vulnerable_dependency rs,
     match rs with [] => b | _ => Some (acc ++ map vulnerable_dependency rs) end).
Proof.
  revert acc b. induction rs as [|r rs IH]; intros acc b; simpl.
  - by rewrite app_nil_r.
  - rewrite IH. simpl. rewrite <- app_assoc. simpl. by destruct rs.
Qed.

(** X1. Every record of the dependency scanner becomes one vulnerable
    dependency, in order and without merging; with no record at all the
    collection of the analysis is left as it was. *)
Theorem load_sca_scan_results_map (old : list VulnerableDependency)
    (rs : list DepscanRecord) :
  load_sca_scan_results old rs
  = match rs with
    | [] => old
    | _ :: _ => map vulnerable_dependency rs
    end.
Proof.
  unfold load_sca_scan_results. rewrite sca_fold. by destruct rs.
Qed.

(** ** [load_vulnerability] *)

(** X2. [load_vulnerability] fails exactly on a record whose metadata holds
    an empty list as [cwe] or [owasp], and then with IndexError; on every
    other record it returns a vulnerability of the given title without
    occurrences, whose severity is derived from its CWE when the record has
    metadata and is left unset when it has none. *)
Theorem load_vulnerability_outcome (generate_severity : option string -> string)
    (t : string) (r : SemgrepResult) :
  if bad_metadata r
  then load_vulnerability generate_severity t r = Raise IndexError
  else exists v,
         load_vulnerability generate_severity t r = Ok v
         /\ title v = t
         /\ occurences v = []
         /\ description v = ex_message (extra r)
         /\ severity v = match ex_metadata (extra r) with
                         | Some _ => Some (generate_severity (cwe v))
                         | None => None
                         end.
Proof.
  unfold bad_metadata, load_vulnerability.
  destruct (ex_metadata (extra r)) as [md|]; [|by eexists].
  destruct (md_cwe md) as [[c|[|c cs]]|], (md_owasp md) as [[o|[|o os]]|];
    simpl; try done; by eexists.
Qed.

(** ** [save_result] *)

(** X3. The result file of an analysis is only ever appended to: a call
    adds its text after what the file held, touches no other file and no
    stored object, so two calls leave both texts, in order. *)
Theorem save_result_appends (PROJECTS_SRC_PATH : string) (r1 r2 : SemgrepOutput)
    (s : Session) :
  let f := result_filename PROJECTS_SRC_PATH (current s) in
  let before := default [] (artifacts s !! f) in
  let s1 := save_result PROJECTS_SRC_PATH r1 s in
  let s2 := save_result PROJECTS_SRC_PATH r2 s1 in
  artifacts s1 !! f = Some (before ++ [r1])
  /\ artifacts s2 !! f = Some (before ++ [r1; r2])
  /\ (forall g, g <> f -> artifacts s2 !! g = artifacts s !! g)
  /\ current s2 = current s
  /\ committed s2 = committed s.
Proof.
  simpl. unfold save_result. simpl. rewrite !lookup_insert_eq. simpl.
  rewrite <- app_assoc. repeat split.
  intros g Hg. by rewrite !lookup_insert_ne.
Qed.

(** ** [stop_analysis] *)

Section StopFacts.

Variables PROJECTS_SRC_PATH EXTRACT_FOLDER_NAME : string.
Variables BOM_FILE CDXGEN DEPSCAN DEPSCAN_RESULT_FILE : string.
Variable generate_severity : option string -> string.
Variables count_occurences calculate_risk_level : Store -> Z.
Variable repr_str : string -> string.
Variable w : World.

Local Abbreviation async_scan :=
  (async_scan PROJECTS_SRC_PATH EXTRACT_FOLDER_NAME BOM_FILE CDXGEN DEPSCAN
     DEPSCAN_RESULT_FILE generate_severity count_occurences calculate_risk_level
     repr_str w).
Local Abbreviation try_block :=
  (try_block PROJECTS_SRC_PATH EXTRACT_FOLDER_NAME BOM_FILE CDXGEN DEPSCAN
     DEPSCAN_RESULT_FILE w).

(** A run that returns has gone through the last statements of the task. *)
Lemma async_scan_returned_finish (s s' : Session) :
  async_scan s = Returned s' ->
  exists s0, s' = finish count_occurences calculate_risk_level w s0.
Proof.
  unfold Util.async_scan.
  destruct (Util.try_block _ _ _ _ _ _ _ (start w s)) as [[[sca sem] insp]|e].
  - destruct (load_scan_results _ _ _ _ sem) as [vs [e|]]; [done|].
    intros [= <-]. eauto.
  - intros [= <-]. eauto.
Qed.

(** X4. Aborting while the task runs revokes the task id the task has
    recorded at its start. Aborting after the task has returned finds the
    task id already cleared: the empty id is revoked, and the status
    FINISHED or ERROR the run had set is replaced by ABORTED, while the
    findings, the error message and the finish time of the run stay. In
    both cases the change is committed. *)
Theorem stop_analysis_revokes (s : Session) :
  (let '(s', revoked) := stop_analysis (start w s) in
   revoked = Some (request_id w)
   /\ status (project (current s')) = STATUS_ABORTED
   /\ task_id (analysis (current s')) = Some ""
   /\ committed s' = current s')
  /\ (forall s1, async_scan s = Returned s1 ->
        let '(s', revoked) := stop_analysis s1 in
        revoked = Some ""
        /\ status (project (current s')) = STATUS_ABORTED
        /\ committed s' = current s'
        /\ vulnerabilities (analysis (current s'))
           = vulnerabilities (analysis (current s1))
        /\ vulnerable_dependencies (analysis (current s'))
           = vulnerable_dependencies (analysis (current s1))
        /\ app_inspector_match (current s') = app_inspector_match (current s1)
        /\ error_message (project (current s'))
           = error_message (project (current s1))
        /\ finished_on (analysis (current s')) = Some (now_finished w)).
Proof.
  split; [by repeat split|].
  intros s1 [s0 ->]%async_scan_returned_finish. by repeat split.
Qed.

(** X5. The ignore-paths setting of an analysis has no part in a run: the
    scan options and the outcome of the three scanners are the same
    whatever it holds. *)
Theorem ignore_paths_unused (s : Session) (p : string) :
  let s' := update (set_analysis (with_ignore_paths p)) s in
  generate_semgrep_options PROJECTS_SRC_PATH EXTRACT_FOLDER_NAME w (current s')
  = generate_semgrep_options PROJECTS_SRC_PATH EXTRACT_FOLDER_NAME w (current s)
  /\ try_block s' = try_block s.
Proof. split; reflexivity. Qed.

End StopFacts.

(** ** Strings: check ids, decimal numbers, file names *)

Lemma has_char_app (c : ascii) (a b : string) :
  Py.has_char c (a +:+ b) = Py.has_char c a || Py.has_char c b.
Proof.
  induction a as [|d a IH]; simpl; [done|]. rewrite IH. by rewrite orb_assoc.
Qed.

(** The last piece of a split string: the string itself when it holds no
    separator, what follows the last separator otherwise. *)
Lemma split_last (sep : ascii) (s : string) :
  let p := List.last (Py.split sep s) EmptyString in
  (Py.split sep s = [p] /\ s = p) \/ (exists q, s = q +:+ String sep p).
Proof.
  induction s as [|c s IH]; simpl; [by left|].
  pose proof (split_nonempty sep s) as Hne.
  pose proof (split_pieces sep s) as Hpieces.
  pose proof (join_split sep s) as Hjoin.
  destruct (Ascii.eqb_spec c sep) as [->|Hc].
  - right. destruct (Py.split sep s) as [|piece pieces] eqn:Hs; [done|].
    simpl in IH. destruct IH as [[[= ->] ->]|[q ->]].
    + by exists EmptyString.
    + exists (String sep q). simpl. by destruct pieces.
  - destruct (Py.split sep s) as [|piece pieces] eqn:Hs; [done|].
    simpl in IH. destruct pieces as [|piece2 pieces].
    + left. simpl in Hjoin. subst s. done.
    + right. destruct IH as [[[=] _]|[q ->]]. by exists (String c q).
Qed.

(** X6. The title of a finding is the part of its check id after the last
    dot, or the whole check id when that holds no dot; the title itself
    never holds a dot. *)
Theorem logical_title_last_segment (r : SemgrepResult) :
  Py.has_char "." (logical_title r) = false
  /\ ((check_id r = logical_title r /\ Py.has_char "." (check_id r) = false)
      \/ exists q, check_id r = q +:+ "." +:+ logical_title r).
Proof.
  unfold logical_title.
  assert (Hp : Py.has_char "." (List.last (Py.split "." (check_id r)) EmptyString) = false).
  { pose proof (split_pieces "." (check_id r)) as Hall.
    pose proof (split_nonempty "." (check_id r)) as Hne.
    destruct (exists_last Hne) as (l & p & Heq). rewrite Heq in *.
    rewrite last_last. apply List.Forall_app in Hall as [_ Hall]. by inversion Hall. }
  split; [exact Hp|].
  destruct (split_last "." (check_id r)) as [[_ Heq]|[q Hq]].
  - left. split; [done|]. by rewrite Heq at 1.
  - right. by exists q.
Qed.

(** ** [save_result]: the name of the result file *)

Lemma result_filename_shape (PROJECTS_SRC_PATH : string) (st : Store) :
  result_filename PROJECTS_SRC_PATH st
  = joined_root PROJECTS_SRC_PATH +:+ Py.str (project_id (project st))
      +:+ String "/" ("analysis_" +:+ Py.str (analysis_id (analysis st)) +:+ ".json").
Proof.
  unfold result_filename, joined_root.
  destruct (str_no_slash (project_id (project st))) as [Hns Hne].
  set (pid := Py.str (project_id (project st))) in *.
  assert (Hstart : Py.starts_with_slash pid = false).
  { destruct pid as [|c pid]; [done|]. simpl in *.
    by apply orb_false_iff in Hns as [-> _]. }
  assert (Hend : Py.ends_with_slash pid = false).
  { destruct (Py.ends_with_slash pid) eqn:He; [|done].
    apply ends_with_slash_has_slash in He. congruence. }
  assert (Hjoin : forall root, root +:+ pid <> "" /\
            Py.path_join (root +:+ pid) ("analysis_" +:+ Py.str (analysis_id (analysis st)) +:+ ".json")
            = root +:+ pid +:+ String "/" ("analysis_" +:+ Py.str (analysis_id (analysis st)) +:+ ".json")).
  { intros root. assert (Hne' : root +:+ pid <> "") by (by destruct root, pid).
    split; [done|]. unfold Py.path_join. simpl.
    rewrite ends_with_slash_app, Hend by done.
    destruct (root +:+ pid) eqn:Hr; [done|]. simpl.
    rewrite <- Hr. by rewrite str_app_assoc. }
  unfold Py.path_join at 2. rewrite Hstart.
  destruct (negb (Py.truthy PROJECTS_SRC_PATH) || Py.ends_with_slash PROJECTS_SRC_PATH).
  - apply Hjoin.
  - rewrite <- (str_app_assoc PROJECTS_SRC_PATH "/" pid).
    apply (Hjoin (PROJECTS_SRC_PATH +:+ "/")).
Qed.

(** X7. The result file is named after the project and the analysis: two
    stores have the same file name exactly when they have the same project
    id and the same analysis id, so no two analyses ever write to one
    file. *)
Theorem result_filename_inj (PROJECTS_SRC_PATH : string) (st1 st2 : Store) :
  result_filename PROJECTS_SRC_PATH st1 = result_filename PROJECTS_SRC_PATH st2
  <-> project_id (project st1) = project_id (project st2)
      /\ analysis_id (analysis st1) = analysis_id (analysis st2).
Proof.
  rewrite !result_filename_shape. split.
  - intros H%str_app_inv_head.
    apply str_app_slash_inv in H as [Hp Ha]; try apply str_no_slash.
    split; [by apply str_inj|].
    apply str_app_inv_head, str_app_inv_tail in Ha. by apply str_inj.
  - by intros [-> ->].
Qed.

(** ** The path strip on paths under the scan root *)

Module StripFacts.
Import Re.

Lemma fmap_S_add (n : nat) (o : option nat) :
  S <$> (Nat.add n <$> o) = Nat.add (S n) <$> o.
Proof. by destruct o. Qed.

(** A literal at the head of the pattern takes itself off the string. *)
Lemma match_literal (s : string) (r : regex) (t : string) :
  match_here (literal s ++ r) (s +:+ t) = Nat.add (String.length s) <$> match_here r t.
Proof.
  induction s as [|c s IH].
  { change (match_here r t = Nat.add 0 <$> match_here r t).
    by destruct (match_here r t). }
  rewrite str_app_cons. simpl. rewrite Ascii.eqb_refl.
  change (S <$> match_here (literal s ++ r) (s +:+ t)
          = Nat.add (S (String.length s)) <$> match_here r t).
  by rewrite IH, fmap_S_add.
Qed.

Lemma digit_not_slash (c : ascii) : is_digit c = true -> Ascii.eqb c "/" = false.
Proof.
  destruct (Ascii.eqb_spec c "/") as [->|]; [|done].
  intros H. vm_compute in H. done.
Qed.

(** [\d+] takes all the digits that come before a character that is none,
    when what follows the digits matches the rest of the pattern. *)
Lemma match_plus_digits (k : string -> option nat) (ds : string) (c : ascii)
    (t : string) (m : nat) :
  all_digits ds = true -> ds <> "" -> is_digit c = false ->
  k (String c t) = Some m ->
  match_plus ADigit k (ds +:+ String c t) = Some (String.length ds + m)%nat.
Proof.
  intros Hds Hne Hc Hk. induction ds as [|d ds IH]; [done|].
  simpl in Hds. apply andb_true_iff in Hds as [Hd Hds].
  rewrite str_app_cons. simpl. rewrite Hd.
  destruct ds as [|d' ds].
  - change ("" +:+ String c t) with (String c t). simpl. rewrite Hc, Hk. done.
  - rewrite IH by done. done.
Qed.

(** Once a match of [S n] characters starts at the head of the string,
    substitution goes on behind it. *)
Lemma sub_from_skip (r : regex) (a t : string) :
  sub_from r (String.length a) (a +:+ t) = sub_from r 0 t.
Proof.
  induction a as [|c a IH]; [done|]. rewrite str_app_cons. simpl. exact IH.
Qed.

Lemma sub_match_at_head (r : regex) (a t : string) :
  a <> "" -> match_here r (a +:+ t) = Some (String.length a) ->
  sub r (a +:+ t) = sub r t.
Proof.
  intros Ha Hm. unfold sub. destruct a as [|c a]; [done|].
  rewrite str_app_cons in *. simpl in *. rewrite Hm. apply sub_from_skip.
Qed.

Lemma match_opt_take (a : atom) (r : regex) (c : ascii) (rest : string) (n : nat) :
  atom_matches a c = true -> match_here r rest = Some n ->
  match_here (Opt a :: r) (String c rest) = Some (S n).
Proof. intros Ha Hr. simpl. by rewrite Ha, Hr. Qed.

Lemma match_opt_skip (a : atom) (r : regex) (c : ascii) (rest : string) :
  atom_matches a c = false ->
  match_here (Opt a :: r) (String c rest) = match_here r (String c rest).
Proof. intros Ha. simpl. by rewrite Ha. Qed.

End StripFacts.

(** The scan root at the head of a path is one match of the pattern. *)
Lemma strip_prefix_head (PROJECTS_SRC_PATH EXTRACT_FOLDER_NAME : string)
    (slash ds rel : string) :
  slash = "" \/ slash = "/" ->
  all_digits ds = true -> ds <> "" ->
  let strip := strip PROJECTS_SRC_PATH EXTRACT_FOLDER_NAME in
  let reported :=
    PROJECTS_SRC_PATH +:+ slash +:+ ds +:+ "/" +:+ EXTRACT_FOLDER_NAME +:+ "/" +:+ rel in
  strip reported = strip rel
  /\ (Re.search (strip_pattern PROJECTS_SRC_PATH EXTRACT_FOLDER_NAME) rel = false ->
      strip reported = rel).
Proof.
  intros Hslash Hds Hne strip0 reported.
  assert (Heq : strip0 reported = strip0 rel).
  { subst strip0 reported. unfold strip.
    set (pat := strip_pattern PROJECTS_SRC_PATH EXTRACT_FOLDER_NAME).
    set (prefix := PROJECTS_SRC_PATH +:+ slash +:+ ds +:+ "/" +:+ EXTRACT_FOLDER_NAME +:+ "/").
    replace (PROJECTS_SRC_PATH +:+ slash +:+ ds +:+ "/" +:+ EXTRACT_FOLDER_NAME +:+ "/" +:+ rel)
      with (prefix +:+ rel) by (subst prefix; by rewrite !str_app_assoc).
    apply StripFacts.sub_match_at_head.
    { subst prefix. destruct PROJECTS_SRC_PATH, slash, ds; done. }
    (* the match at the head of the reported path *)
    assert (Htail : Re.match_here
                      (Re.One (Re.ASet ["/"%char])
                         :: Re.literal EXTRACT_FOLDER_NAME ++ [Re.Opt (Re.ASet ["/"%char])])
                      (String "/" (EXTRACT_FOLDER_NAME +:+ String "/" rel))
                    = Some (S (String.length EXTRACT_FOLDER_NAME + 1))).
    { simpl. rewrite StripFacts.match_literal. simpl. done. }
    assert (Hdigits : Re.match_here
                        (Re.Plus Re.ADigit :: Re.One (Re.ASet ["/"%char])
                           :: Re.literal EXTRACT_FOLDER_NAME ++ [Re.Opt (Re.ASet ["/"%char])])
                        (ds +:+ String "/" (EXTRACT_FOLDER_NAME +:+ String "/" rel))
                      = Some (String.length ds + S (String.length EXTRACT_FOLDER_NAME + 1))%nat).
    { simpl. by apply StripFacts.match_plus_digits. }
    assert (Hopt : Re.match_here
                     (Re.Opt (Re.ASet ["/"%char]) :: Re.Plus Re.ADigit
                        :: Re.One (Re.ASet ["/"%char])
                        :: Re.literal EXTRACT_FOLDER_NAME ++ [Re.Opt (Re.ASet ["/"%char])])
                     (slash +:+ ds +:+ String "/" (EXTRACT_FOLDER_NAME +:+ String "/" rel))
                   = Some (String.length slash + (String.length ds
                            + S (String.length EXTRACT_FOLDER_NAME + 1)))%nat).
    { destruct Hslash as [-> | ->].
      - change ("" +:+ ?x) with x.
        destruct ds as [|d ds]; [done|]. rewrite str_app_cons in *.
        simpl in Hds. apply andb_true_iff in Hds as [Hd _].
        rewrite StripFacts.match_opt_skip; [exact Hdigits|].
        simpl. by rewrite (StripFacts.digit_not_slash d Hd).
      - change ("/" +:+ ?x) with (String "/" x).
        by apply StripFacts.match_opt_take. }
    subst pat prefix. unfold strip_pattern.
    rewrite !str_app_assoc. rewrite StripFacts.match_literal.
    change ("/" +:+ ?x) with (String "/" x).
    change (EXTRACT_FOLDER_NAME +:+ "/" +:+ rel)
      with (EXTRACT_FOLDER_NAME +:+ String "/" rel).
    simpl app. rewrite Hopt. simpl.
    repeat (rewrite ?str_app_length; simpl String.length). f_equal; lia. }
  split; [exact Heq|]. intros Hfree. rewrite Heq. by apply ReFacts.sub_no_match.
Qed.
(** ** The loop of [load_scan_results] *)

Section ScanLoopFacts.

Variables PROJECTS_SRC_PATH EXTRACT_FOLDER_NAME : string.
Variable generate_severity : option string -> string.

Local Abbreviation load_occurence :=
  (load_occurence PROJECTS_SRC_PATH EXTRACT_FOLDER_NAME).
Local Abbreviation load_vulnerability := (load_vulnerability generate_severity).
Local Abbreviation scan_step :=
  (scan_step PROJECTS_SRC_PATH EXTRACT_FOLDER_NAME generate_severity).
Local Abbreviation scan_loop :=
  (scan_loop PROJECTS_SRC_PATH EXTRACT_FOLDER_NAME generate_severity).
Local Abbreviation load_scan_results :=
  (load_scan_results PROJECTS_SRC_PATH EXTRACT_FOLDER_NAME generate_severity).
Local Abbreviation occurences_of :=
  (occurences_of PROJECTS_SRC_PATH EXTRACT_FOLDER_NAME).
Local Abbreviation loop_inv := (loop_inv PROJECTS_SRC_PATH EXTRACT_FOLDER_NAME).
Local Abbreviation group_inv :=
  (group_inv PROJECTS_SRC_PATH EXTRACT_FOLDER_NAME generate_severity).

Lemma first_of_title_absent (t : string) (seen : list SemgrepResult) :
  ~ In t (map logical_title seen) -> first_of_title t seen = None.
Proof.
  induction seen as [|r seen IH]; simpl; [done|]. intros H.
  destruct (String.eqb_spec (logical_title r) t) as [Heq|Hne]; [|apply IH; tauto].
  destruct H. by left.
Qed.

Lemma first_of_title_snoc (t : string) (seen : list SemgrepResult) (c : SemgrepResult) :
  first_of_title t (seen ++ [c])
  = match first_of_title t seen with
    | Some r => Some r
    | None => if String.eqb (logical_title c) t then Some c else None
    end.
Proof.
  induction seen as [|r seen IH]; simpl; [done|].
  by destruct (String.eqb (logical_title r) t).
Qed.

Lemma first_of_title_title (t : string) (l : list SemgrepResult) (r : SemgrepResult) :
  first_of_title t l = Some r -> logical_title r = t /\ In r l.
Proof.
  induction l as [|c l IH]; simpl; [done|].
  destruct (String.eqb_spec (logical_title c) t) as [Heq|Hne].
  - intros [= <-]. auto.
  - intros H. destruct (IH H). auto.
Qed.

Lemma first_seen_snoc (l : list string) (t : string) :
  first_seen (l ++ [t])
  = if existsb (String.eqb t) (first_seen l) then first_seen l
    else first_seen l ++ [t].
Proof. unfold first_seen. by rewrite fold_left_app. Qed.

Lemma existsb_eqb_In (t : string) (l : list string) :
  existsb (String.eqb t) l = true <-> In t l.
Proof.
  rewrite existsb_exists. split.
  - intros (x & Hx & Heq%String.eqb_eq). by subst.
  - intros H. exists t. split; [done|]. apply String.eqb_refl.
Qed.

Lemma add_occurence_set (o : Occurence) (os : list Occurence) (v0 : Vulnerability) :
  add_occurence o (set_occurences os v0) = set_occurences (os ++ [o]) v0.
Proof. reflexivity. Qed.

Lemma load_vulnerability_set (t : string) (r : SemgrepResult) (v : Vulnerability) :
  load_vulnerability t r = Ok v -> v = set_occurences [] v.
Proof.
  intros H. apply load_vulnerability_fresh in H as [_ H].
  destruct v. simpl in H. by subst.
Qed.

(** One turn of the loop keeps the order and the first-met metadata. *)
Lemma scan_step_group_inv (seen : list SemgrepResult) (st st' : ScanLoop)
    (c : SemgrepResult) :
  group_inv seen st -> scan_step st c = Ok st' -> group_inv (seen ++ [c]) st'.
Proof.
  intros [Hbase Hord Hheads] Hstep.
  pose proof (scan_step_inv _ _ _ seen st st' c Hbase Hstep) as Hbase'.
  destruct Hbase as [Hnd Ht Ho Hb].
  split; [done| |]; revert Hstep; unfold Util.scan_step;
    destruct (List.filter _ (vulns st)) as [|e es] eqn:Hf.
  - apply filter_title_nil in Hf.
    destruct (load_vulnerability (logical_title c) c) as [n|e] eqn:Hn; [|done].
    apply load_vulnerability_fresh in Hn as [Hnt _].
    simpl. intros [= <-]. simpl.
    rewrite !map_app. change (map logical_title [c]) with [logical_title c].
    rewrite first_seen_snoc, <- Hord. simpl. rewrite Hnt.
    destruct (existsb _ _) eqn:He; [|done].
    apply existsb_eqb_In in He. done.
  - assert (Hin : In (logical_title c) (map title (vulns st))).
    { destruct (in_dec string_dec (logical_title c) (map title (vulns st)))
        as [H|H]; [done|].
      apply filter_title_nil in H. congruence. }
    intros [= <-]. simpl.
    rewrite append_to_first_titles, map_app.
    change (map logical_title [c]) with [logical_title c].
    rewrite first_seen_snoc, <- Hord.
    apply existsb_eqb_In in Hin. by rewrite Hin.
  - apply filter_title_nil in Hf.
    destruct (load_vulnerability (logical_title c) c) as [n|e] eqn:Hn; [|done].
    pose proof (load_vulnerability_fresh _ _ _ _ Hn) as [Hnt _].
    simpl. intros [= <-]. simpl.
    intros v [Hv|[<-|[]]]%in_app_iff.
    + destruct (Hheads v Hv) as (r & v0 & Hr & Hv0 & Hset).
      exists r, v0. by rewrite first_of_title_snoc, Hr.
    + simpl. rewrite Hnt. exists c, n.
      rewrite first_of_title_snoc, first_of_title_absent, String.eqb_refl
        by (by rewrite <- Ht).
      split; [done|]. split; [done|].
      clear. by destruct n.
  - intros [= <-]. simpl. intros v' Hv'.
    apply append_to_first_In in Hv'; [|done].
    destruct Hv' as [[Hv _]|(v & Hv & _ & ->)].
    + destruct (Hheads v' Hv) as (r & v0 & Hr & Hv0 & Hset).
      exists r, v0. by rewrite first_of_title_snoc, Hr.
    + destruct (Hheads v Hv) as (r & v0 & Hr & Hv0 & Hset).
      exists r, v0. simpl. rewrite first_of_title_snoc, Hr.
      split; [done|]. split; [done|].
      rewrite Hset at 1. reflexivity.
Qed.

Lemma scan_loop_group_inv (results seen : list SemgrepResult) (st st' : ScanLoop) :
  group_inv seen st -> scan_loop st results = (st', None) ->
  group_inv (seen ++ results) st'.
Proof.
  revert seen st. induction results as [|c rest IH]; intros seen st Hinv; simpl.
  - intros [= <-]. by rewrite app_nil_r.
  - destruct (scan_step st c) as [st1|e] eqn:Hstep; [|done].
    intros Hloop. replace (seen ++ c :: rest) with ((seen ++ [c]) ++ rest)
      by (by rewrite <- app_assoc).
    eapply IH; [|done]. by eapply scan_step_group_inv.
Qed.

Lemma group_inv_init : group_inv [] {| vulns := []; assigned := None |}.
Proof. split; [apply loop_inv_init|done|done]. Qed.

Lemma scan_loop_app (pre rest : list SemgrepResult) (st : ScanLoop) :
  scan_loop st (pre ++ rest)
  = match scan_loop st pre with
    | (st', None) => scan_loop st' rest
    | (st', Some e) => (st', Some e)
    end.
Proof.
  revert st. induction pre as [|c pre IH]; intros st; simpl; [done|].
  destruct (scan_step st c) as [st'|e]; [apply IH|done].
Qed.

(** A record of a title met before: the attribute is assigned the list. *)
Lemma scan_step_repeat (st st' : ScanLoop) (c : SemgrepResult) :
  In (logical_title c) (map title (vulns st)) ->
  scan_step st c = Ok st' -> assigned st' = Some (vulns st').
Proof.
  intros Hin. unfold Util.scan_step.
  destruct (List.filter _ (vulns st)) as [|e es] eqn:Hf.
  - apply filter_title_nil in Hf. done.
  - by intros [= <-].
Qed.

(** Records of new titles only: the attribute is not assigned. *)
Lemma scan_loop_new_titles (post : list SemgrepResult) (st st' : ScanLoop) :
  List.NoDup (map logical_title post) ->
  (forall r, In r post -> ~ In (logical_title r) (map title (vulns st))) ->
  scan_loop st post = (st', None) -> assigned st' = assigned st.
Proof.
  revert st. induction post as [|c post IH]; intros st Hnd Hnew; simpl.
  - by intros [= <-].
  - simpl in Hnd. apply List.NoDup_cons_iff in Hnd as [Hc Hnd].
    unfold Util.scan_step.
    destruct (List.filter _ (vulns st)) as [|e es] eqn:Hf.
    + destruct (load_vulnerability (logical_title c) c) as [n|e] eqn:Hn; [|done].
      apply load_vulnerability_fresh in Hn as [Hnt _]. simpl.
      intros Hloop. apply IH in Hloop; [done|done|]. simpl.
      intros r Hr. rewrite map_app, in_app_iff. simpl. rewrite Hnt.
      intros [Hin|[Heq|[]]].
      * by apply (Hnew r); [right|].
      * apply Hc. rewrite Heq. by apply in_map.
    + assert (Hin : ~ In (logical_title c) (map title (vulns st)))
        by (apply Hnew; by left).
      apply filter_title_nil in Hin. congruence.
Qed.

Lemma first_of_title_app (t : string) (a b : list SemgrepResult) (r : SemgrepResult) :
  first_of_title t a = Some r -> first_of_title t (a ++ b) = Some r.
Proof.
  induction a as [|c a IH]; simpl; [done|].
  by destruct (String.eqb (logical_title c) t).
Qed.

Lemma occurences_of_app_absent (t : string) (a b : list SemgrepResult) :
  ~ In t (map logical_title b) -> occurences_of t (a ++ b) = occurences_of t a.
Proof.
  intros Hb. pose proof (occurences_of_absent PROJECTS_SRC_PATH EXTRACT_FOLDER_NAME
                           t b Hb) as Hnil.
  unfold Util.occurences_of in *. by rewrite List.filter_app, map_app, Hnil, app_nil_r.
Qed.

(** X9. When some title comes more than once among the records and the
    call returns, the analysis holds what the assignment stored at the last
    record that repeats a title: one vulnerability per title met up to
    there, in the order in which the titles were met first, each with the
    description, CWE, OWASP entry, references and severity of the first
    record of its title and the occurrences of all records of that title
    in encounter order. The titles met first after that record are not
    stored. *)
Theorem load_scan_results_groups (old vs : list Vulnerability)
    (pre : list SemgrepResult) (c : SemgrepResult) (post : list SemgrepResult) :
  In (logical_title c) (map logical_title pre) ->
  List.NoDup (map logical_title post) ->
  (forall r, In r post -> ~ In (logical_title r) (map logical_title pre)) ->
  let results := pre ++ c :: post in
  load_scan_results old (OutObject (Some results)) = (vs, None) ->
  map title vs = first_seen (map logical_title pre)
  /\ List.NoDup (map title vs)
  /\ (forall v, In v vs ->
        exists r v0,
          first_of_title (title v) results = Some r
          /\ load_vulnerability (title v) r = Ok v0
          /\ v = set_occurences (occurences_of (title v) results) v0)
  /\ (forall r, In r post -> ~ In (logical_title r) (map title vs)).
Proof.
  intros Hc Hnd Hnew results. subst results. unfold Util.load_scan_results.
  destruct (scan_loop _ (pre ++ c :: post)) as [st exn] eqn:Hloop.
  intros [= <- ->]. rewrite scan_loop_app in Hloop.
  destruct (scan_loop _ pre) as [st1 [e|]] eqn:Hpre; [done|].
  apply (scan_loop_group_inv pre [] _ _ group_inv_init) in Hpre. simpl in Hpre.
  simpl in Hloop.
  destruct (scan_step st1 c) as [st2|e] eqn:Hstep; [|done].
  pose proof (scan_step_group_inv pre st1 st2 c Hpre Hstep) as Hinv.
  destruct Hpre as [[_ Ht1 _ _] Hord1 _].
  apply scan_step_repeat in Hstep; [|by apply Ht1].
  destruct Hinv as [[Hnd2 Ht2 Ho2 _] Hord2 Hheads2].
  assert (Htitles : forall t, In t (map title (vulns st2)) <-> In t (map logical_title pre)).
  { intros t. rewrite Ht2, map_app, in_app_iff. simpl.
    split; [intros [H|[<-|[]]]; done|by left]. }
  apply scan_loop_new_titles in Hloop; [|done|].
  2:{ intros r Hr Hin. apply Htitles in Hin. by apply (Hnew r). }
  rewrite Hloop, Hstep. simpl.
  split; [|split; [done|split]].
  - rewrite Hord2, map_app. change (map logical_title [c]) with [logical_title c].
    rewrite first_seen_snoc, <- Hord1.
    apply Ht1, existsb_eqb_In in Hc. by rewrite Hc.
  - intros v Hv. destruct (Hheads2 v Hv) as (r & v0 & Hr & Hv0 & Hset).
    exists r, v0.
    replace (pre ++ c :: post) with ((pre ++ [c]) ++ post) by (by rewrite <- app_assoc).
    split; [by apply first_of_title_app|]. split; [done|].
    rewrite occurences_of_app_absent, <- (Ho2 v Hv); [done|].
    intros (r0 & Heq & Hr0)%in_map_iff. apply (Hnew r0 Hr0).
    rewrite Heq. apply Htitles. by apply in_map.
  - intros r Hr Hin. apply Htitles in Hin. by apply (Hnew r).
Qed.

(** The loop fails only with IndexError. *)
Lemma scan_step_raise (st : ScanLoop) (c : SemgrepResult) (e : Exn) :
  scan_step st c = Raise e ->
  e = IndexError /\ bad_metadata c = true
  /\ ~ In (logical_title c) (map title (vulns st)).
Proof.
  unfold Util.scan_step.
  destruct (List.filter _ (vulns st)) as [|x xs] eqn:Hf; [|done].
  apply filter_title_nil in Hf.
  pose proof (load_vulnerability_outcome generate_severity (logical_title c) c) as H.
  destruct (bad_metadata c).
  - rewrite H. by intros [= <-].
  - destruct H as (v & -> & _). done.
Qed.

Lemma scan_step_ok (st : ScanLoop) (c : SemgrepResult) (st' : ScanLoop) :
  scan_step st c = Ok st' ->
  bad_metadata c = false \/ In (logical_title c) (map title (vulns st)).
Proof.
  unfold Util.scan_step.
  destruct (List.filter _ (vulns st)) as [|x xs] eqn:Hf.
  - pose proof (load_vulnerability_outcome generate_severity (logical_title c) c) as H.
    destruct (bad_metadata c); [by rewrite H|auto].
  - intros _. right.
    destruct (in_dec string_dec (logical_title c) (map title (vulns st)))
      as [H|H]; [done|].
    apply filter_title_nil in H. congruence.
Qed.

Lemma scan_loop_raises (results seen : list SemgrepResult) (st : ScanLoop) :
  loop_inv seen st ->
  (snd (scan_loop st results) = None
   \/ snd (scan_loop st results) = Some IndexError)
  /\ (snd (scan_loop st results) = Some IndexError
      <-> exists t r, ~ In t (map logical_title seen)
                      /\ first_of_title t results = Some r
                      /\ bad_metadata r = true).
Proof.
  revert seen st. induction results as [|c rest IH]; intros seen st Hinv; simpl.
  - split; [auto|]. split; [done|]. by intros (t & r & _ & ? & _).
  - destruct (scan_step st c) as [st1|e] eqn:Hstep.
    + pose proof (scan_step_inv _ _ _ seen st st1 c Hinv Hstep) as Hinv1.
      destruct (IH _ _ Hinv1) as [Hcases Hiff]. split; [done|].
      rewrite Hiff. apply scan_step_ok in Hstep.
      rewrite (inv_titles _ _ _ _ Hinv) in Hstep.
      split; intros (t & r & Hfresh & Hfirst & Hbad); exists t, r.
      * rewrite map_app, in_app_iff in Hfresh. simpl in Hfresh.
        destruct (String.eqb_spec (logical_title c) t) as [Heq|Hne]; [tauto|].
        tauto.
      * destruct (String.eqb_spec (logical_title c) t) as [Heq|Hne].
        -- injection Hfirst as <-. subst t.
           destruct Hstep; [congruence|done].
        -- rewrite map_app, in_app_iff. simpl. tauto.
    + apply scan_step_raise in Hstep as (-> & Hbad & Hfresh).
      rewrite (inv_titles _ _ _ _ Hinv) in Hfresh.
      simpl. split; [auto|]. split; [|done]. intros _.
      exists (logical_title c), c. by rewrite String.eqb_refl.
Qed.

(** X10. Metadata is read from the first record of each title only: the
    call fails exactly when, for some title, the first record of that
    title holds an empty list as [cwe] or [owasp], and the failure is an
    IndexError; it comes to its end exactly when no title has such a first
    record, whatever the later records of a title hold. *)
Theorem load_scan_results_raises (old : list Vulnerability)
    (results : list SemgrepResult) :
  let exn := snd (load_scan_results old (OutObject (Some results))) in
  (exn = Some IndexError
   <-> exists t r, first_of_title t results = Some r /\ bad_metadata r = true)
  /\ (exn = None
      <-> forall t r, first_of_title t results = Some r -> bad_metadata r = false).
Proof.
  simpl. unfold Util.load_scan_results.
  destruct (scan_loop_raises results [] _ (loop_inv_init _ _)) as [Hcases Hiff].
  destruct (scan_loop _ results) as [st exn] eqn:Hloop. simpl in *.
  assert (Hiff' : exn = Some IndexError
            <-> exists t r, first_of_title t results = Some r /\ bad_metadata r = true).
  { rewrite Hiff. split; intros (t & r & H); exists t, r; tauto. }
  split; [done|]. split.
  - intros -> t r Hr. destruct (bad_metadata r) eqn:Hb; [|done].
    assert (None = Some IndexError) by (apply Hiff'; eauto). done.
  - intros Hall. destruct Hcases as [->| ->]; [done|].
    destruct Hiff' as [(t & r & Hr & Hb) _]; [done|].
    rewrite (Hall t r Hr) in Hb. done.
Qed.

End ScanLoopFacts.

Lemma load_scan_results_groups_witness :
  map title (fst (load_scan_results "data/projects/" "extract" sample_severity []
                    (OutObject (Some [sqli_1; sqli_2; xss_1]))))
  = first_seen (map logical_title [sqli_1]).
Proof.
  apply (load_scan_results_groups "data/projects/" "extract" sample_severity []
           _ [sqli_1] sqli_2 [xss_1]).
  - by left.
  - repeat constructor. simpl. tauto.
  - intros r [<-|[]] [H|[]]. discriminate.
  - reflexivity.
Defined.
(** ** The loop of [load_scan_app_inspector] *)

Module InspectorFacts.

Lemma filter_rule_nil (t : string) (l : list Match) :
  List.filter (fun m => String.eqb (m_title m) t) l = [] <-> ~ In t (map m_title l).
Proof.
  induction l as [|m l IH]; simpl; [tauto|].
  destruct (String.eqb_spec (m_title m) t) as [Heq|Hne].
  - split; [done|]. intros H. destruct H. by left.
  - rewrite IH. tauto.
Qed.

Lemma append_tag_titles (t : string) (g : InspectorTag) (l : list Match) :
  map m_title (append_tag_to_first t g l) = map m_title l.
Proof.
  induction l as [|m l IH]; simpl; [done|].
  destruct (String.eqb (m_title m) t); simpl; [done|]. by rewrite IH.
Qed.

Lemma append_tag_In (t : string) (g : InspectorTag) (l : list Match) (m' : Match) :
  List.NoDup (map m_title l) -> In m' (append_tag_to_first t g l) ->
  (In m' l /\ m_title m' <> t)
  \/ (exists m, In m l /\ m_title m = t /\ m' = add_tag g m).
Proof.
  induction l as [|m l IH]; simpl; [done|].
  intros Hnd. apply List.NoDup_cons_iff in Hnd as [Hm Hnd].
  destruct (String.eqb_spec (m_title m) t) as [Heq|Hne]; simpl.
  - intros [<-|Hin].
    + right. exists m. auto.
    + left. split; [auto|]. intros Ht. apply Hm. rewrite Heq, <- Ht.
      by apply in_map.
  - intros [<-|Hin]; [left; auto|].
    destruct (IH Hnd Hin) as [[? ?]|(u & ? & ? & ?)]; [left; auto|].
    right. exists u. auto.
Qed.

Lemma tags_of_snoc (t : string) (seen : list DetailedMatch) (d : DetailedMatch) :
  tags_of t (seen ++ [d])
  = tags_of t seen ++ (if String.eqb (ruleName d) t then [load_tags d] else []).
Proof.
  unfold tags_of. rewrite List.filter_app, map_app. simpl.
  by destruct (String.eqb (ruleName d) t).
Qed.

Lemma tags_of_absent (t : string) (seen : list DetailedMatch) :
  ~ In t (map ruleName seen) -> tags_of t seen = [].
Proof.
  unfold tags_of. induction seen as [|r seen IH]; simpl; [done|].
  intros H. destruct (String.eqb_spec (ruleName r) t) as [Heq|Hne].
  - destruct H. by left.
  - apply IH. tauto.
Qed.

Lemma first_of_rule_absent (t : string) (seen : list DetailedMatch) :
  ~ In t (map ruleName seen) -> first_of_rule t seen = None.
Proof.
  induction seen as [|r seen IH]; simpl; [done|]. intros H.
  destruct (String.eqb_spec (ruleName r) t) as [Heq|Hne]; [|apply IH; tauto].
  destruct H. by left.
Qed.

Lemma first_of_rule_snoc (t : string) (seen : list DetailedMatch) (d : DetailedMatch) :
  first_of_rule t (seen ++ [d])
  = match first_of_rule t seen with
    | Some r => Some r
    | None => if String.eqb (ruleName d) t then Some d else None
    end.
Proof.
  induction seen as [|r seen IH]; simpl; [done|].
  by destruct (String.eqb (ruleName r) t).
Qed.

(** One turn of the loop keeps the invariant, and the order of the list. *)
Lemma inspector_step_inv (seen : list DetailedMatch) (st : list Match * option (list Match))
    (d : DetailedMatch) :
  inspector_inv seen st /\ map m_title (fst st) = first_seen (map ruleName seen) ->
  inspector_inv (seen ++ [d]) (inspector_step st d)
  /\ map m_title (fst (inspector_step st d)) = first_seen (map ruleName (seen ++ [d])).
Proof.
  intros [[Hnd Ht Hm Hb] Hord]. unfold inspector_step.
  rewrite map_app. change (map ruleName [d]) with [ruleName d].
  rewrite first_seen_snoc, <- Hord.
  destruct (List.filter _ (fst st)) as [|e es] eqn:Hf.
  - (* a new rule name *)
    apply filter_rule_nil in Hf. simpl. split; [split; simpl|].
    + rewrite map_app. simpl. by apply nodup_snoc.
    + intros t. rewrite !map_app, !in_app_iff, Ht. simpl. tauto.
    + intros m [Hin|[<-|[]]]%in_app_iff.
      * destruct (Hm m Hin) as (d0 & Hd0 & Heq). exists d0.
        rewrite first_of_rule_snoc, Hd0, tags_of_snoc. split; [done|].
        destruct (String.eqb_spec (ruleName d) (m_title m)) as [He|Hne].
        -- destruct Hf. rewrite He. by apply in_map.
        -- by rewrite app_nil_r.
      * simpl. exists d.
        rewrite first_of_rule_snoc, first_of_rule_absent, String.eqb_refl
          by (by rewrite <- Ht).
        split; [done|].
        rewrite tags_of_snoc, String.eqb_refl, tags_of_absent by (by rewrite <- Ht).
        reflexivity.
    + rewrite Hb, map_app. simpl. rewrite nodup_snoc, <- Ht. tauto.
    + rewrite map_app. simpl.
      destruct (existsb _ _) eqn:He; [|done].
      apply existsb_eqb_In in He. done.
  - (* a rule name met before *)
    assert (Hin : In (ruleName d) (map m_title (fst st))).
    { destruct (in_dec string_dec (ruleName d) (map m_title (fst st)))
        as [H|H]; [done|].
      apply filter_rule_nil in H. congruence. }
    simpl. split; [split; simpl|].
    + by rewrite append_tag_titles.
    + intros t. rewrite append_tag_titles, map_app, in_app_iff, Ht.
      simpl. split; [tauto|]. intros [H|[<-|[]]]; [done|]. by apply Ht.
    + intros m' Hm'. apply append_tag_In in Hm'; [|done].
      destruct Hm' as [[Hin' Hne]|(m & Hin' & Heq & ->)].
      * destruct (Hm m' Hin') as (d0 & Hd0 & Hrec). exists d0.
        rewrite first_of_rule_snoc, Hd0, tags_of_snoc. split; [done|].
        destruct (String.eqb_spec (ruleName d) (m_title m')); [congruence|].
        by rewrite app_nil_r.
      * destruct (Hm m Hin') as (d0 & Hd0 & Hrec). exists d0. simpl.
        rewrite first_of_rule_snoc, Hd0, tags_of_snoc, Heq, String.eqb_refl.
        split; [done|]. rewrite Hrec at 1. simpl. by rewrite Heq.
    + split; [|by eexists]. intros _. rewrite map_app. simpl. rewrite nodup_snoc.
      apply Ht in Hin. tauto.
    + rewrite append_tag_titles. apply existsb_eqb_In in Hin. by rewrite Hin.
Qed.

Lemma inspector_loop_inv (detailed seen : list DetailedMatch) (st : list Match * option (list Match)) :
  inspector_inv seen st /\ map m_title (fst st) = first_seen (map ruleName seen) ->
  inspector_inv (seen ++ detailed) (fold_left inspector_step detailed st)
  /\ map m_title (fst (fold_left inspector_step detailed st))
     = first_seen (map ruleName (seen ++ detailed)).
Proof.
  revert seen st. induction detailed as [|d rest IH]; intros seen st Hinv; simpl.
  - by rewrite app_nil_r.
  - replace (seen ++ d :: rest) with ((seen ++ [d]) ++ rest)
      by (by rewrite <- app_assoc).
    apply IH. by apply inspector_step_inv.
Qed.

Lemma inspector_inv_init :
  inspector_inv [] ([], None) /\ map m_title (@nil Match) = first_seen (map ruleName []).
Proof.
  split; [|done]. split; simpl; [constructor|tauto|done|].
  split; [by intros [? [=]]|]. intros H. destruct H. constructor.
Qed.

(** A record of a rule name met before: the attribute is assigned the list. *)
Lemma inspector_step_repeat (st : list Match * option (list Match)) (d : DetailedMatch) :
  In (ruleName d) (map m_title (fst st)) ->
  snd (inspector_step st d) = Some (fst (inspector_step st d)).
Proof.
  intros Hin. unfold inspector_step.
  destruct (List.filter _ (fst st)) as [|e es] eqn:Hf; [|done].
  apply filter_rule_nil in Hf. done.
Qed.

(** Records of new rule names only: the attribute is not assigned. *)
Lemma inspector_loop_new_rules (post : list DetailedMatch)
    (st : list Match * option (list Match)) :
  List.NoDup (map ruleName post) ->
  (forall r, In r post -> ~ In (ruleName r) (map m_title (fst st))) ->
  snd (fold_left inspector_step post st) = snd st.
Proof.
  revert st. induction post as [|d post IH]; intros st Hnd Hnew; simpl; [done|].
  simpl in Hnd. apply List.NoDup_cons_iff in Hnd as [Hd Hnd].
  assert (Hstep : inspector_step st d
            = (fst st ++ [add_tag (load_tags d) (load_match (ruleName d) d)], snd st)).
  { unfold inspector_step.
    destruct (List.filter _ (fst st)) as [|e es] eqn:Hf; [done|].
    assert (Hin : ~ In (ruleName d) (map m_title (fst st))) by (apply Hnew; by left).
    apply filter_rule_nil in Hin. congruence. }
  rewrite Hstep, IH; [done|done|]. simpl.
  intros r Hr. rewrite map_app, in_app_iff. simpl.
  intros [Hin|[Heq|[]]].
  - by apply (Hnew r); [right|].
  - apply Hd. rewrite Heq. by apply in_map.
Qed.

Lemma first_of_rule_app (t : string) (a b : list DetailedMatch) (r : DetailedMatch) :
  first_of_rule t a = Some r -> first_of_rule t (a ++ b) = Some r.
Proof.
  induction a as [|c a IH]; simpl; [done|].
  by destruct (String.eqb (ruleName c) t).
Qed.

Lemma tags_of_app_absent (t : string) (a b : list DetailedMatch) :
  ~ In t (map ruleName b) -> tags_of t (a ++ b) = tags_of t a.
Proof.
  intros Hb. pose proof (tags_of_absent t b Hb) as Hnil.
  unfold tags_of in *. by rewrite List.filter_app, map_app, Hnil, app_nil_r.
Qed.

End InspectorFacts.

(** X11. When some rule name comes more than once among the detailed
    matches, the inspector object holds what the assignment stored at the
    last record that repeats a rule name: one match per rule name met up
    to there, in the order in which the names were met first; each is the
    match [load_match] makes from the first record of its rule name, with
    one tag for every record of that name, in encounter order. The rule
    names met first after that record are not stored. *)
Theorem load_scan_app_inspector_groups (old : list Match)
    (pre : list DetailedMatch) (d : DetailedMatch) (post : list DetailedMatch) :
  In (ruleName d) (map ruleName pre) ->
  List.NoDup (map ruleName post) ->
  (forall r, In r post -> ~ In (ruleName r) (map ruleName pre)) ->
  let detailed := pre ++ d :: post in
  let l := load_scan_app_inspector old (InspObject (Some (Some detailed))) in
  map m_title l = first_seen (map ruleName pre)
  /\ List.NoDup (map m_title l)
  /\ (forall m, In m l ->
        exists d0, first_of_rule (m_title m) detailed = Some d0
                   /\ m = set_tag (tags_of (m_title m) detailed)
                            (load_match (m_title m) d0))
  /\ (forall r, In r post -> ~ In (ruleName r) (map m_title l)).
Proof.
  intros Hd Hnd Hnew. simpl.
  replace (pre ++ d :: post) with ((pre ++ [d]) ++ post) by (by rewrite <- app_assoc).
  rewrite !fold_left_app. simpl.
  destruct (InspectorFacts.inspector_loop_inv pre [] _
              InspectorFacts.inspector_inv_init) as [[_ Ht1 _ _] Hord1].
  simpl in Ht1, Hord1.
  set (st1 := fold_left inspector_step pre ([], None)) in *.
  destruct (InspectorFacts.inspector_step_inv pre st1 d) as [[Hnd2 Ht2 Hm2 _] Hord2].
  { subst st1. exact (InspectorFacts.inspector_loop_inv pre [] _
                        InspectorFacts.inspector_inv_init). }
  pose proof (InspectorFacts.inspector_step_repeat st1 d) as Hrep.
  set (st2 := inspector_step st1 d) in *.
  assert (Htitles : forall t, In t (map m_title (fst st2)) <-> In t (map ruleName pre)).
  { intros t. rewrite Ht2, map_app, in_app_iff. simpl.
    split; [intros [H|[<-|[]]]; done|by left]. }
  pose proof (InspectorFacts.inspector_loop_new_rules post st2 Hnd) as Hpost.
  destruct (fold_left inspector_step post st2) as [l3 a3]. simpl in Hpost.
  rewrite Hpost, Hrep; [|by apply Ht1|].
  2:{ intros r Hr Hin. apply Htitles in Hin. by apply (Hnew r). }
  simpl. split; [|split; [done|split]].
  - rewrite Hord2, map_app. change (map ruleName [d]) with [ruleName d].
    rewrite first_seen_snoc, <- Hord1.
    apply Ht1, existsb_eqb_In in Hd. by rewrite Hd.
  - intros m Hin. destruct (Hm2 m Hin) as (d0 & Hd0 & Hrec). exists d0.
    split; [by apply InspectorFacts.first_of_rule_app|].
    rewrite InspectorFacts.tags_of_app_absent; [exact Hrec|].
    intros (r0 & Heq & Hr0)%in_map_iff. apply (Hnew r0 Hr0).
    rewrite Heq. apply Htitles. by apply in_map.
  - intros r Hr Hin. apply Htitles in Hin. by apply (Hnew r).
Qed.

(** X12. The inspector object keeps the matches it had when the result is
    the empty string, lacks [metaData] or [detailedMatchList], or lists
    records whose rule names are pairwise distinct: the matches made in
    the loop are then never stored. *)
Theorem load_scan_app_inspector_unchanged (old : list Match) (r : InspectorResult) :
  match r with
  | InspObject (Some (Some detailed)) => List.NoDup (map ruleName detailed)
  | _ => True
  end ->
  load_scan_app_inspector old r = old.
Proof.
  destruct r as [|[[detailed|]|]]; try done. intros Hnd. simpl.
  destruct (InspectorFacts.inspector_loop_inv detailed [] _
              InspectorFacts.inspector_inv_init) as [[_ _ _ Hb] _].
  simpl in *.
  destruct (fold_left inspector_step detailed ([], None)) as [l assigned].
  simpl in *. destruct assigned as [m|]; [|done]. destruct Hb as [Hb _].
  destruct Hb; [by eexists|done].
Qed.

Lemma load_scan_app_inspector_groups_witness :
  map m_title (load_scan_app_inspector []
                 (InspObject (Some (Some [hash_1; hash_2; http_1]))))
  = first_seen (map ruleName [hash_1]).
Proof.
  apply (load_scan_app_inspector_groups [] [hash_1] hash_2 [http_1]).
  - by left.
  - repeat constructor. simpl. tauto.
  - intros r [<-|[]] [H|[]]. discriminate.
Defined.

Lemma load_scan_app_inspector_unchanged_witness :
  load_scan_app_inspector [] (InspObject (Some (Some [hash_1; http_1]))) = [].
Proof.
  apply (load_scan_app_inspector_unchanged [] (InspObject (Some (Some [hash_1; http_1])))).
  simpl. repeat constructor; simpl; intros H; [destruct H as [H|H]; [discriminate|done]|done].
Defined.
(** ** Paths: from the scan root to the code view *)

(** X8. A file the engine reports under the scan path of the project (the
    path [generate_semgrep_options] globs in) is stored without that
    path: stripping gives what stripping the path inside the project
    gives, which is that inner path itself when it holds no occurrence of
    the pattern. *)
Theorem strip_scan_path (PROJECTS_SRC_PATH EXTRACT_FOLDER_NAME : string)
    (p : Project) (rel : string) :
  (0 <= project_id p)%Z ->
  Py.starts_with_slash EXTRACT_FOLDER_NAME = false ->
  let strip := strip PROJECTS_SRC_PATH EXTRACT_FOLDER_NAME in
  let reported :=
    scan_path PROJECTS_SRC_PATH EXTRACT_FOLDER_NAME p +:+ "/" +:+ rel in
  strip reported = strip rel
  /\ (Re.search (strip_pattern PROJECTS_SRC_PATH EXTRACT_FOLDER_NAME) rel = false ->
      strip reported = rel).
Proof.
  intros Hid HE. unfold scan_path.
  destruct (scan_path_shape PROJECTS_SRC_PATH EXTRACT_FOLDER_NAME (project_id p) HE)
    as (slash & Hslash & ->).
  destruct (str_digits (project_id p) Hid) as [Hd Hne].
  rewrite !str_app_assoc.
  exact (strip_prefix_head PROJECTS_SRC_PATH EXTRACT_FOLDER_NAME slash
           (Py.str (project_id p)) rel Hslash Hd Hne).
Qed.

Lemma strip_scan_path_witness :
  strip "data/projects/" "extract"
    (scan_path "data/projects/" "extract" sample_project +:+ "/" +:+ "src/app/views.py")
  = "src/app/views.py".
Proof.
  apply (strip_scan_path "data/projects/" "extract" sample_project "src/app/views.py");
    [vm_compute; discriminate | reflexivity | reflexivity].
Defined.

(** X13. The code view opens the file the engine reported: for a record
    whose path lies under the scan path of the project, the stored
    occurrence holds the path inside the project, and joining the source
    path of the view with it gives the reported path again. *)
Theorem codeview_opens_reported_file (PROJECTS_SRC_PATH EXTRACT_FOLDER_NAME : string)
    (project_id : Z) (rel : string) (r : SemgrepResult) :
  (0 <= project_id)%Z ->
  EXTRACT_FOLDER_NAME <> "" ->
  Py.starts_with_slash EXTRACT_FOLDER_NAME = false ->
  Py.ends_with_slash EXTRACT_FOLDER_NAME = false ->
  Py.starts_with_slash rel = false ->
  Re.search (strip_pattern PROJECTS_SRC_PATH EXTRACT_FOLDER_NAME) rel = false ->
  let source_path :=
    Routes.source_path PROJECTS_SRC_PATH EXTRACT_FOLDER_NAME project_id in
  path r = source_path +:+ "/" +:+ rel ->
  let occurence := load_occurence PROJECTS_SRC_PATH EXTRACT_FOLDER_NAME r in
  file_path occurence = rel
  /\ path_join source_path (file_path occurence) = path r.
Proof.
  intros Hid HEne HEs HEe Hrel Hfree source_path Hpath occurence.
  subst occurence. unfold load_occurence. simpl. rewrite Hpath.
  destruct (scan_path_shape PROJECTS_SRC_PATH EXTRACT_FOLDER_NAME project_id HEs)
    as (slash & Hslash & Hshape).
  fold (Routes.source_path PROJECTS_SRC_PATH EXTRACT_FOLDER_NAME project_id) in Hshape.
  fold source_path in Hshape.
  destruct (str_digits project_id Hid) as [Hd Hne].
  destruct (strip_prefix_head PROJECTS_SRC_PATH EXTRACT_FOLDER_NAME slash
              (Py.str project_id) rel Hslash Hd Hne) as [_ Hstrip].
  simpl in Hstrip. specialize (Hstrip Hfree).
  assert (Hfile : strip PROJECTS_SRC_PATH EXTRACT_FOLDER_NAME
                    (source_path +:+ "/" +:+ rel) = rel).
  { rewrite Hshape, !str_app_assoc. exact Hstrip. }
  rewrite Hfile. split; [done|].
  apply path_join_child; [| |done]; rewrite Hshape.
  - by destruct PROJECTS_SRC_PATH, slash, (Py.str project_id).
  - rewrite <- !str_app_assoc. by rewrite ends_with_slash_app.
Qed.

Lemma codeview_opens_reported_file_witness :
  file_path (load_occurence "data/projects/" "extract" sqli_1) = "app/db.py"
  /\ path_join (Routes.source_path "data/projects/" "extract" 7)
       (file_path (load_occurence "data/projects/" "extract" sqli_1))
     = path sqli_1.
Proof.
  apply (codeview_opens_reported_file "data/projects/" "extract" 7 "app/db.py" sqli_1);
    try reflexivity; [vm_compute; discriminate | discriminate].
Defined.
(** ** [analysis_codeview]: the path check *)

Lemma commonprefix_prefix (a b : string) :
  Routes.commonprefix a b = b <-> String.prefix b a = true.
Proof.
  revert b. induction a as [|c a IH]; intros [|d b]; simpl; try done.
  destruct (Ascii.eqb_spec c d) as [->|Hne].
  - destruct (ascii_dec d d) as [_|Hd]; [|done]. rewrite <- IH.
    split; [by intros [= ->]|by intros ->].
  - destruct (ascii_dec d c) as [->|_]; [done|]. done.
Qed.

Lemma prefix_app (a b : string) : String.prefix a (a +:+ b) = true.
Proof.
  induction a as [|c a IH]; [change ("" +:+ b) with b; by destruct b|].
  rewrite str_app_cons. simpl. by destruct (ascii_dec c c).
Qed.

Section CodeviewFacts.

Variables PROJECTS_SRC_PATH EXTRACT_FOLDER_NAME : string.
Variable stored_occurences : gmap Z (Occurence * Z).
Variable realpath : string -> string.
Variable open_read : string -> Res string.
Variable guess_lexer_for_filename : string -> string -> option string.

Local Abbreviation analysis_codeview :=
  (Routes.analysis_codeview PROJECTS_SRC_PATH EXTRACT_FOLDER_NAME stored_occurences
     realpath open_read guess_lexer_for_filename).
Local Abbreviation source_path :=
  (Routes.source_path PROJECTS_SRC_PATH EXTRACT_FOLDER_NAME).

(** X14. The path check of the code view compares characters, not path
    components: the view answers 403 exactly when the real source path is
    not a string prefix of the real path of the file. So every file whose
    real path starts with the characters of the real source path gets
    through, also one in a sibling folder whose name begins with the name
    of the extraction folder. *)
Theorem analysis_codeview_guard (occurence_id : Z) (occurence : Occurence)
    (project_id : Z) :
  stored_occurences !! occurence_id = Some (occurence, project_id) ->
  let file := path_join (source_path project_id) (file_path occurence) in
  (analysis_codeview occurence_id = Routes.CodeviewForbidden
   <-> String.prefix (realpath (source_path project_id)) (realpath file) = false)
  /\ (forall suffix,
        realpath file = realpath (source_path project_id) +:+ suffix ->
        analysis_codeview occurence_id <> Routes.CodeviewForbidden).
Proof.
  intros Hocc file.
  assert (Hiff : analysis_codeview occurence_id = Routes.CodeviewForbidden
            <-> String.prefix (realpath (source_path project_id)) (realpath file) = false).
  { unfold Routes.analysis_codeview. rewrite Hocc. fold file.
    unfold Routes.inside_source.
    destruct (String.eqb_spec
                (Routes.commonprefix (realpath file) (realpath (source_path project_id)))
                (realpath (source_path project_id))) as [Heq|Hne]; simpl.
    - apply commonprefix_prefix in Heq. rewrite Heq.
      split; [|done]. by destruct (open_read file).
    - split; [|done]. intros _.
      destruct (String.prefix _ _) eqn:Hp; [|done].
      apply commonprefix_prefix in Hp. done. }
  split; [exact Hiff|]. intros suffix Hreal Hforbidden.
  apply Hiff in Hforbidden. by rewrite Hreal, prefix_app in Hforbidden.
Qed.

End CodeviewFacts.

Lemma analysis_codeview_guard_witness :
  Routes.analysis_codeview "data/projects/" "extract" {[ 5%Z := (sibling_occurence, 7%Z) ]}
    sample_realpath sample_open_read (fun _ _ => None) 5
  <> Routes.CodeviewForbidden.
Proof.
  assert (Hocc : ({[ 5%Z := (sibling_occurence, 7%Z) ]} : gmap Z (Occurence * Z)) !! 5%Z
                 = Some (sibling_occurence, 7%Z)) by (vm_compute; reflexivity).
  destruct (analysis_codeview_guard "data/projects/" "extract"
              {[ 5%Z := (sibling_occurence, 7%Z) ]} sample_realpath sample_open_read
              (fun _ _ => None) 5 sibling_occurence 7 Hocc) as [_ Hpass].
  apply (Hpass "_old/secret.py"). reflexivity.
Defined.

(** ** [import_rules]: a missing rule source *)

Section RuleStagerFailure.

Variable RULES_PATH : string.
Variable RULE_EXTENSIONS : list string.

Local Abbreviation import_rules := (import_rules RULES_PATH RULE_EXTENSIONS).
Local Abbreviation import_loop := (import_loop RULES_PATH RULE_EXTENSIONS).
Local Abbreviation import_rule := (import_rule RULES_PATH RULE_EXTENSIONS).
Local Abbreviation staged_entries := (staged_entries RULES_PATH).
Local Abbreviation source c_rule := (path_join RULES_PATH (r_file_path c_rule)).

Lemma import_loop_app (rule_folder : string) (pre rest : list Rule) (fs : FS) :
  import_loop rule_folder fs (pre ++ rest)
  = match import_loop rule_folder fs pre with
    | (fs', None) => import_loop rule_folder fs' rest
    | (fs', Some e) => (fs', Some e)
    end.
Proof.
  revert fs. induction pre as [|r pre IH]; intros fs; simpl; [done|].
  destruct (import_rule rule_folder fs r) as [fs'|e]; [apply IH|done].
Qed.

(** X15. When the source of a rule is missing, staging stops there with
    FileNotFoundError: the destination folder, emptied at the start, holds
    the entries of the rules before the missing one and nothing of what it
    held before the call; the rules after it are not staged; other folders
    and all regular files are as they were. *)
Theorem import_rules_missing_source (ext : string) (exts : list string)
    (a : Analysis) (rule_folder : string) (fs : FS)
    (pre : list Rule) (r : Rule) (post : list Rule) :
  flat_map rules (rule_packs a) = pre ++ r :: post ->
  RULE_EXTENSIONS = ext :: exts ->
  (forall r0, In r0 pre -> is_Some (regular fs !! source r0)) ->
  (forall r0, In r0 pre -> has_slash (staged_name ext r0) = false) ->
  regular fs !! source r = None ->
  regular fs !! rule_folder = None ->
  exists fs',
    import_rules a rule_folder fs = (fs', Some FileNotFoundError)
    /\ regular fs' = regular fs
    /\ folders fs' !! rule_folder = Some (staged_entries ext fs pre)
    /\ (forall other, other <> rule_folder ->
          folders fs' !! other = folders fs !! other).
Proof.
  intros Hsel Hext Hsrc Hname Hmiss Hfile. unfold Util.import_rules.
  set (fs1 := if isdir rule_folder fs then rmtree rule_folder fs else fs).
  assert (H1 : regular fs1 = regular fs) by (subst fs1; by destruct (isdir _ _)).
  assert (H2 : folders fs1 !! rule_folder = None).
  { subst fs1. unfold isdir. case_bool_decide as Hd; simpl.
    - apply lookup_delete_eq.
    - by apply eq_None_not_Some. }
  assert (H3 : forall other, other <> rule_folder ->
            folders fs1 !! other = folders fs !! other).
  { intros other Hne. subst fs1. destruct (isdir _ _); simpl; [|done].
    by apply lookup_delete_ne. }
  unfold mkdir. rewrite H1, Hfile, H2.
  rewrite !bool_decide_eq_false_2 by (by intros [? [=]]). simpl.
  rewrite Hsel, import_loop_app.
  erewrite (import_loop_stages RULES_PATH RULE_EXTENSIONS ext exts);
    simpl; [|done|apply lookup_insert_eq|..].
  2,3: intros r0 Hr0; simpl; auto.
  unfold Util.import_rule, copyfile. rewrite Hext. simpl. rewrite Hmiss.
  eexists. split; [reflexivity|]. simpl. split; [done|]. split.
  - by rewrite lookup_insert_eq.
  - intros other Hne. rewrite !lookup_insert_ne by done. by apply H3.
Qed.

End RuleStagerFailure.

Lemma import_rules_missing_source_witness :
  exists fs',
    sample_import_rules sample_analysis partial_fs = (fs', Some FileNotFoundError)
    /\ regular fs' = regular partial_fs
    /\ folders fs' !! "data/projects/7/rules"
       = Some (staged_entries "data/rules/" ".yaml" partial_fs
                 [ {| r_file_path := "community/python/sqli.yaml";
                      r_repository_name := "community";
                      r_category := "python"; r_title := "sqli" |} ]).
Proof.
  destruct (import_rules_missing_source "data/rules/" [".yaml"; ".yml"] ".yaml" [".yml"]
              sample_analysis "data/projects/7/rules" partial_fs
              [ {| r_file_path := "community/python/sqli.yaml";
                   r_repository_name := "community";
                   r_category := "python"; r_title := "sqli" |} ]
              {| r_file_path := "community/python/xss.yaml";
                 r_repository_name := "community";
                 r_category := "python"; r_title := "xss" |} [])
    as (fs' & Hrun & Hreg & Hdir & _).
  - reflexivity.
  - reflexivity.
  - intros r0 [<-|[]]; vm_compute; eexists; reflexivity.
  - intros r0 [<-|[]]; vm_compute; reflexivity.
  - vm_compute. reflexivity.
  - vm_compute. reflexivity.
  - exists fs'. repeat split; assumption.
Defined.

(** ** [vulnerabilities_sorted_by_severity], applied again *)

Section SortedTwice.

Variables SEVERITY_HIGH SEVERITY_MEDIUM : string.

Local Abbreviation is_high := (is_high SEVERITY_HIGH).
Local Abbreviation is_medium := (is_medium SEVERITY_MEDIUM).
Local Abbreviation is_other := (is_other SEVERITY_HIGH SEVERITY_MEDIUM).
Local Abbreviation sorted :=
  (vulnerabilities_sorted_by_severity SEVERITY_HIGH SEVERITY_MEDIUM).

Lemma sorted_shape (l : list Vulnerability) :
  SEVERITY_HIGH <> SEVERITY_MEDIUM ->
  sorted l = rev (List.filter is_high l) ++ List.filter is_medium l
               ++ List.filter is_other l.
Proof.
  intros Hne. unfold vulnerabilities_sorted_by_severity.
  rewrite sort_loop_shape. simpl. rewrite <- app_assoc. do 2 f_equal.
  apply List.filter_ext. intros v.
  destruct (is_high v) eqn:Hh; simpl; [|done].
  symmetry. by apply (high_not_medium SEVERITY_HIGH SEVERITY_MEDIUM).
Qed.

Lemma filter_all (A : Type) (p : A -> bool) (l : list A) :
  (forall x, In x l -> p x = true) -> List.filter p l = l.
Proof.
  induction l as [|x l IH]; simpl; [done|]. intros H.
  rewrite (H x) by (by left). f_equal. apply IH. intros y Hy. apply H. by right.
Qed.

Lemma filter_none (A : Type) (p : A -> bool) (l : list A) :
  (forall x, In x l -> p x = false) -> List.filter p l = [].
Proof.
  induction l as [|x l IH]; simpl; [done|]. intros H.
  rewrite (H x) by (by left). apply IH. intros y Hy. apply H. by right.
Qed.

(** X16. The sort is not idempotent: among the high-severity
    vulnerabilities the one met last comes first, so sorting a sorted list
    turns them around again and gives all three groups in encounter
    order; a third pass gives the result of the first. *)
Theorem sorted_by_severity_twice (l : list Vulnerability) :
  SEVERITY_HIGH <> SEVERITY_MEDIUM ->
  sorted (sorted l)
  = List.filter is_high l ++ List.filter is_medium l ++ List.filter is_other l
  /\ sorted (sorted (sorted l)) = sorted l.
Proof.
  intros Hne.
  assert (Hhm : forall v, is_high v = true -> is_medium v = false)
    by (intros v; by apply (high_not_medium SEVERITY_HIGH SEVERITY_MEDIUM)).
  assert (Hgroups : forall h m o : list Vulnerability,
            (forall v, In v h -> is_high v = true) ->
            (forall v, In v m -> is_high v = false /\ is_medium v = true) ->
            (forall v, In v o -> is_high v = false /\ is_medium v = false) ->
            sorted (h ++ m ++ o) = rev h ++ m ++ o).
  { intros h m o Hh Hm Ho. rewrite (sorted_shape _ Hne).
    rewrite !List.filter_app.
    rewrite (filter_all _ is_high h), (filter_none _ is_high m),
      (filter_none _ is_high o); [|intros v Hv; by apply Ho|intros v Hv; by apply Hm|done].
    rewrite (filter_none _ is_medium h), (filter_all _ is_medium m),
      (filter_none _ is_medium o);
      [|intros v Hv; by apply Ho|intros v Hv; by apply Hm|intros v Hv; auto].
    rewrite (filter_none _ is_other h), (filter_none _ is_other m),
      (filter_all _ is_other o).
    - by rewrite !app_nil_r.
    - intros v Hv. unfold Util.is_other. by destruct (Ho v Hv) as [-> ->].
    - intros v Hv. unfold Util.is_other. destruct (Hm v Hv) as [-> ->]. done.
    - intros v Hv. unfold Util.is_other. by rewrite (Hh v Hv). }
  assert (Hm : forall v, In v (List.filter is_medium l) ->
                 is_high v = false /\ is_medium v = true).
  { intros v [_ Hv]%List.filter_In. split; [|done].
    destruct (is_high v) eqn:Hh; [|done]. rewrite (Hhm v Hh) in Hv. done. }
  assert (Ho : forall v, In v (List.filter is_other l) ->
                 is_high v = false /\ is_medium v = false).
  { intros v [_ Hv]%List.filter_In. unfold Util.is_other in Hv.
    apply andb_true_iff in Hv as [H1%negb_true_iff H2%negb_true_iff]. done. }
  assert (Hh : forall v, In v (List.filter is_high l) -> is_high v = true).
  { by intros v [_ Hv]%List.filter_In. }
  assert (Htwice : sorted (sorted l)
            = List.filter is_high l ++ List.filter is_medium l ++ List.filter is_other l).
  { rewrite (sorted_shape l Hne), Hgroups, rev_involutive; [done| |done|done].
    intros v Hv%in_rev. by apply Hh. }
  split; [exact Htwice|].
  rewrite Htwice, Hgroups by done. symmetry. by apply sorted_shape.
Qed.

End SortedTwice.

Lemma sorted_by_severity_twice_witness :
  map title (vulnerabilities_sorted_by_severity "high" "medium"
               (vulnerabilities_sorted_by_severity "high" "medium" mixed_vulns))
  = ["b"; "d"; "c"; "f"; "a"; "e"].
Proof.
  assert (Hne : "high" <> "medium") by discriminate.
  destruct (sorted_by_severity_twice "high" "medium" mixed_vulns Hne) as [-> _].
  reflexivity.
Defined.
(** ** From the run to the workbench *)

Section WorkbenchFacts.

Variables PROJECTS_SRC_PATH EXTRACT_FOLDER_NAME : string.
Variables BOM_FILE CDXGEN DEPSCAN DEPSCAN_RESULT_FILE : string.
Variable generate_severity : option string -> string.
Variables count_occurences calculate_risk_level : Store -> Z.
Variable repr_str : string -> string.
Variable w : World.
Variables SEVERITY_HIGH SEVERITY_MEDIUM : string.

Local Abbreviation async_scan :=
  (async_scan PROJECTS_SRC_PATH EXTRACT_FOLDER_NAME BOM_FILE CDXGEN DEPSCAN
     DEPSCAN_RESULT_FILE generate_severity count_occurences calculate_risk_level
     repr_str w).
Local Abbreviation try_block :=
  (try_block PROJECTS_SRC_PATH EXTRACT_FOLDER_NAME BOM_FILE CDXGEN DEPSCAN
     DEPSCAN_RESULT_FILE w).
Local Abbreviation load_scan_results :=
  (load_scan_results PROJECTS_SRC_PATH EXTRACT_FOLDER_NAME generate_severity).

(** With pairwise distinct titles and sound metadata the normalizer
    returns and leaves the attribute as it was. *)
Lemma load_scan_results_distinct_returns (old : list Vulnerability)
    (results : list SemgrepResult) :
  List.NoDup (map logical_title results) ->
  (forall t r, first_of_title t results = Some r -> bad_metadata r = false) ->
  load_scan_results old (OutObject (Some results)) = (old, None).
Proof.
  intros Hnd Hgood.
  destruct (load_scan_results old (OutObject (Some results))) as [vs exn] eqn:Hl.
  assert (Hexn : exn = None).
  { revert Hl. unfold Util.load_scan_results.
    destruct (scan_loop_raises PROJECTS_SRC_PATH EXTRACT_FOLDER_NAME generate_severity
                results [] _ (loop_inv_init _ _)) as [Hcases Hiff].
    destruct (scan_loop _ _ _ _ results) as [st e]. simpl in *.
    intros [= _ <-]. destruct Hcases as [->|He]; [done|].
    apply Hiff in He as (t & r & _ & Hr & Hb). rewrite (Hgood t r Hr) in Hb. done. }
  subst exn. f_equal.
  by apply (load_scan_results_distinct_titles PROJECTS_SRC_PATH EXTRACT_FOLDER_NAME
              generate_severity old vs results).
Qed.

(** X17. A run on a fresh analysis whose engine findings have pairwise
    distinct titles, each with sound metadata, returns with the status
    FINISHED and without a stored vulnerability: the workbench of that
    analysis then answers that no findings were found. *)
Theorem workbench_after_distinct_titles (s : Session)
    (sca : list DepscanRecord) (results : list SemgrepResult)
    (insp : InspectorResult) :
  try_block s = Ok (sca, OutObject (Some results), insp) ->
  List.NoDup (map logical_title results) ->
  (forall t r, first_of_title t results = Some r -> bad_metadata r = false) ->
  vulnerabilities (analysis (current s)) = [] ->
  exists s',
    async_scan s = Returned s'
    /\ status (project (committed s')) = STATUS_FINISHED
    /\ vulnerabilities (analysis (committed s')) = []
    /\ forall (analyses : gmap Z Analysis) (analysis_id : Z),
         analyses !! analysis_id = Some (analysis (committed s')) ->
         Routes.analysis_workbench SEVERITY_HIGH SEVERITY_MEDIUM analyses analysis_id
         = Routes.WorkbenchNoFindings.
Proof.
  intros Htry Hnd Hgood Hfresh.
  pose proof (load_scan_results_distinct_returns
                (vulnerabilities (analysis (current s))) results Hnd Hgood) as Hl.
  eexists. split.
  - apply (async_scan_success_path PROJECTS_SRC_PATH EXTRACT_FOLDER_NAME BOM_FILE
             CDXGEN DEPSCAN DEPSCAN_RESULT_FILE generate_severity count_occurences
             calculate_risk_level repr_str w s sca (OutObject (Some results)) insp
             (vulnerabilities (analysis (current s)))); [exact Htry|exact Hl].
  - simpl. split; [done|]. split; [exact Hfresh|].
    intros analyses analysis_id Hlookup. unfold Routes.analysis_workbench.
    rewrite Hlookup. simpl. by rewrite Hfresh.
Qed.

End WorkbenchFacts.

Lemma workbench_after_distinct_titles_witness :
  exists s',
    sample_async_scan distinct_world sample_session = Returned s'
    /\ status (project (committed s')) = STATUS_FINISHED
    /\ vulnerabilities (analysis (committed s')) = [].
Proof.
  destruct (workbench_after_distinct_titles "data/projects/" "extract" "bom.json"
              "cdxgen" "depscan" "depscan-bom.json" sample_severity sample_count
              sample_risk sample_repr_str distinct_world "high" "medium"
              sample_session [] [sqli_1; xss_1] InspEmpty)
    as (s' & Hrun & Hstatus & Hvulns & _).
  - reflexivity.
  - repeat constructor; simpl; intros H; [destruct H as [H|H]; [discriminate|done]|done].
  - intros t r [_ [<-|[<-|[]]]]%first_of_title_title; reflexivity.
  - reflexivity.
  - exists s'. repeat split; assumption.
Defined.
(** ** [sca_scan]: when it returns *)

Section ScaScanFacts.

Variables PROJECTS_SRC_PATH EXTRACT_FOLDER_NAME : string.
Variables BOM_FILE CDXGEN DEPSCAN DEPSCAN_RESULT_FILE : string.
Variable w : World.

Local Abbreviation sca_scan :=
  (sca_scan PROJECTS_SRC_PATH EXTRACT_FOLDER_NAME BOM_FILE CDXGEN DEPSCAN
     DEPSCAN_RESULT_FILE w).

Lemma loads_all_ok (lines : list string) (rs : list DepscanRecord) :
  loads_all w lines = Ok rs
  <-> Forall2 (fun line r => json_loads w line = Ok r) lines rs.
Proof.
  revert rs. induction lines as [|line lines IH]; intros rs; simpl.
  - split; [intros [= <-]; constructor|]. intros H. by inversion H.
  - destruct (json_loads w line) as [r|e] eqn:Hline; simpl.
    + destruct (loads_all w lines) as [rs'|e] eqn:Hrest; simpl.
      * split.
        -- intros [= <-]. constructor; [done|]. by apply IH.
        -- intros H. inversion H as [|? r0 ? rs0 Hr Hrs]; subst.
           apply IH in Hrs. congruence.
      * split; [done|]. intros H. inversion H as [|? r0 ? rs0 Hr Hrs]; subst.
        apply IH in Hrs. done.
    + split; [done|]. intros H. inversion H; subst. congruence.
Qed.

(** X18. [sca_scan] returns records exactly when both tools could be
    started, the result file of the dependency scanner can be opened and
    every one of its lines parses; the records are then the parsed lines,
    in order. One line that does not parse loses them all. *)
Theorem sca_scan_returns_iff (p : Project) (rs : list DepscanRecord) :
  let output_folder := path_join PROJECTS_SRC_PATH (Py.str (project_id p)) in
  let source_path := path_join output_folder EXTRACT_FOLDER_NAME in
  let bom_file := path_join output_folder BOM_FILE in
  sca_scan p = Ok rs
  <-> subprocess_run w [CDXGEN; "-r"; source_path; "-o"; bom_file] = None
      /\ subprocess_run w [DEPSCAN; "--no-banner"; "--no-error"; "--src"; source_path;
                           "--bom"; bom_file; "--reports-dir"; output_folder] = None
      /\ exists lines,
           readable w !! path_join output_folder DEPSCAN_RESULT_FILE = Some lines
           /\ Forall2 (fun line r => json_loads w line = Ok r) lines rs.
Proof.
  simpl. unfold Util.sca_scan, run, open_lines.
  destruct (subprocess_run w [CDXGEN; _; _; _; _]) as [e1|]; simpl.
  { split; [done|]. by intros [[=] _]. }
  destruct (subprocess_run w (DEPSCAN :: _)) as [e2|]; simpl.
  { split; [done|]. by intros (_ & [=] & _). }
  destruct (readable w !! _) as [lines|]; simpl.
  - rewrite loads_all_ok. split.
    + intros H. repeat split. by exists lines.
    + by intros (_ & _ & lines' & [= <-] & H).
  - split; [done|]. by intros (_ & _ & lines' & [=] & _).
Qed.

End ScaScanFacts.
